(** * scripts/translate.py: extraction, translation, rendering and index
      synchronisation of one Codeforces problem

    A shallow embedding of [scripts/translate.py].  Python strings are
    sequences of Unicode code points, the documentation tree is a finite
    map from paths to file contents, and everything the script does to
    the outside world (HTTP requests, pauses, prints) is recorded in a
    trace that the remote services may depend on. *)

From Stdlib Require Import ZArith NArith Lia List Bool Ascii String.
From stdpp Require Import base option list gmap.

Local Open Scope N_scope.

(** ** Python strings *)

(** A [str] is a list of code points. *)
Abbreviation str := (list N).

(** Literals are written as in the source file and decoded from UTF-8. *)
Definition cont (a : ascii) : N := N.land (N_of_ascii a) 63.

Fixpoint u8 (s : string) : str :=
  match s with
  | EmptyString => []
  | String a s1 =>
    let b := N_of_ascii a in
    if b <? 128 then b :: u8 s1
    else if b <? 224 then
      match s1 with
      | String a1 s2 => N.lor (N.shiftl (N.land b 31) 6) (cont a1) :: u8 s2
      | _ => []
      end
    else if b <? 240 then
      match s1 with
      | String a1 (String a2 s3) =>
        N.lor (N.shiftl (N.land b 15) 12)
              (N.lor (N.shiftl (cont a1) 6) (cont a2)) :: u8 s3
      | _ => []
      end
    else
      match s1 with
      | String a1 (String a2 (String a3 s4)) =>
        N.lor (N.shiftl (N.land b 7) 18)
              (N.lor (N.shiftl (cont a1) 12)
                     (N.lor (N.shiftl (cont a2) 6) (cont a3))) :: u8 s4
      | _ => []
      end
  end.

Definition NL : N := 10.
Definition BAR : N := 124.

(** [bool(s)] for a string: non-empty. *)
Definition truthy (s : str) : bool :=
  match s with [] => false | _ => true end.

(** [str.isspace] on one code point; the set [str.strip] and the regular
    expression class [\s] remove. *)
Definition isspace (c : N) : bool :=
  ((9 <=? c) && (c <=? 13)) || ((28 <=? c) && (c <=? 32))
  || (c =? 133) || (c =? 160) || (c =? 5760)
  || ((8192 <=? c) && (c <=? 8202))
  || (c =? 8232) || (c =? 8233) || (c =? 8239) || (c =? 8287) || (c =? 12288).

Fixpoint drop_while (p : N -> bool) (s : str) : str :=
  match s with
  | [] => []
  | c :: s' => if p c then drop_while p s' else s
  end.

Fixpoint take_while (p : N -> bool) (s : str) : str :=
  match s with
  | [] => []
  | c :: s' => if p c then c :: take_while p s' else []
  end.

Definition lstrip_by (p : N -> bool) (s : str) : str := drop_while p s.
Definition rstrip_by (p : N -> bool) (s : str) : str :=
  rev (drop_while p (rev s)).

(** [s.lstrip()], [s.rstrip()], [s.strip()] and [s.rstrip("|")]. *)
Definition lstrip : str -> str := lstrip_by isspace.
Definition rstrip : str -> str := rstrip_by isspace.
Definition strip (s : str) : str := lstrip (rstrip s).
Definition rstrip_bar : str -> str := rstrip_by (N.eqb BAR).

Fixpoint starts_with (p s : str) : bool :=
  match p, s with
  | [], _ => true
  | a :: p', b :: s' => (a =? b) && starts_with p' s'
  | _ :: _, [] => false
  end.

(** [sub in s]. *)
Fixpoint contains (sub s : str) : bool :=
  starts_with sub s ||
  match s with
  | [] => false
  | _ :: s' => contains sub s'
  end.

(** [sep.join(parts)]. *)
Fixpoint join (sep : str) (parts : list str) : str :=
  match parts with
  | [] => []
  | [p] => p
  | p :: ps => p ++ sep ++ join sep ps
  end.

(** [str(n)] for an integer. *)
Fixpoint digits (d : Decimal.uint) : str :=
  match d with
  | Decimal.Nil => []
  | Decimal.D0 d => 48 :: digits d
  | Decimal.D1 d => 49 :: digits d
  | Decimal.D2 d => 50 :: digits d
  | Decimal.D3 d => 51 :: digits d
  | Decimal.D4 d => 52 :: digits d
  | Decimal.D5 d => 53 :: digits d
  | Decimal.D6 d => 54 :: digits d
  | Decimal.D7 d => 55 :: digits d
  | Decimal.D8 d => 56 :: digits d
  | Decimal.D9 d => 57 :: digits d
  end.

Definition str_of_N (n : N) : str := digits (N.to_uint n).

Definition str_of_Z (z : Z) : str :=
  match z with
  | Zneg p => 45 :: str_of_N (Npos p)
  | _ => str_of_N (Z.to_N z)
  end.

(** ** The outside world *)

(** What a run does to the outside world, in order. *)
Inductive event :=
| LibreRequest (q : str)
| MyMemoryRequest (q : str)
| PageRequest (contest_id : Z) (problem_index : str)
| MetaRequest (contest_id : Z)
| Sleep (ms : N)
| Stdout (line : str)
| Stderr (line : str).

(** The documentation tree below [repo_root]: a path is the list of its
    components. *)
Abbreviation path := (list (list N)).

(** The files of the tree with their text, and the events so far. *)
Record world := World { files : gmap path str; trace : list event }.

(** A computation threads the world and returns a value. *)
Definition M (A : Type) : Type := world -> A * world.

#[global] Instance M_ret : MRet M := fun A a w => (a, w).
#[global] Instance M_bind : MBind M :=
  fun A B f m w => let (a, w') := m w in f a w'.

Definition emit (e : event) : M unit :=
  fun w => (tt, World (files w) (trace w ++ [e])).
Definition history : M (list event) := fun w => (trace w, w).

(** Python opens a text file with universal newlines: on reading, a
    carriage return followed by a line feed, and a carriage return on
    its own, both come out as one line feed. *)
Definition CR : N := 13.

Fixpoint universal_newlines (s : str) : str :=
  match s with
  | [] => []
  | c :: s' =>
    if c =? CR then
      NL :: match s' with
            | d :: s'' =>
              if d =? NL then universal_newlines s'' else universal_newlines s'
            | [] => []
            end
    else c :: universal_newlines s'
  end.

(** The text [read_text] gives for the file at [p], if there is one:
    the stored text with its line ends translated. *)
Definition text_of (fs : gmap path str) (p : path) : option str :=
  universal_newlines <$> fs !! p.

(** [p.exists()], [p.read_text(encoding="utf-8")] and
    [p.write_text(content, encoding="utf-8")].  The tree is on a POSIX
    system: writing stores the text as it is (a line feed is its own
    line separator), and reading translates the line ends, so a
    carriage return that was written is read back as a line feed.  The
    script reads a file only after it found it to exist, and creates
    the directories before it writes, so reading and writing do not
    raise here. *)
Definition exists_file (p : path) : M bool :=
  fun w => (bool_decide (is_Some (files w !! p)), w).
Definition read_text (p : path) : M str :=
  fun w => (default [] (text_of (files w) p), w).
Definition write_text (p : path) (content : str) : M unit :=
  fun w => (tt, World (<[p := content]> (files w)) (trace w)).

(** ** Translation client *)

(** What the two translation services answer.  [LibreFailed] and
    [MyMemoryFailed] stand for anything that raises inside the [try]
    block (connection error, HTTP error status, body that is not JSON);
    a JSON answer carries the fields the script reads. *)
Inductive libre_reply :=
| LibreFailed (e : str)
| LibreJson (translatedText : option str).

Inductive mymemory_reply :=
| MyMemoryFailed (e : str)
| MyMemoryJson (responseStatus : Z) (translatedText : option str).

(** The services are not under the script's control: what they answer
    to a text may depend on everything that happened before. *)
Record translators := Translators {
  libre : list event -> str -> libre_reply;
  mymemory : list event -> str -> mymemory_reply
}.

Section Translate.
Variable net : translators.

Definition translate_libretranslate (text : str) : M str :=
  h ← history;
  _ ← emit (LibreRequest text);
  match libre net h text with
  | LibreJson (Some t) => mret t
  | LibreJson None => mret text
  | LibreFailed e =>
    _ ← emit (Stderr (u8 "  [LibreTranslate 失败] " ++ e));
    mret []
  end.

Definition translate_mymemory (text : str) : M str :=
  h ← history;
  _ ← emit (MyMemoryRequest text);
  match mymemory net h text with
  | MyMemoryJson status t =>
    if (status =? 200)%Z then mret (default text t) else mret []
  | MyMemoryFailed e =>
    _ ← emit (Stderr (u8 "  [MyMemory 失败] " ++ e));
    mret []
  end.

(** [translate(text)]; the script calls it with the default languages
    only. *)
Definition translate (text : str) : M str :=
  if negb (truthy text) || negb (truthy (strip text)) then mret text
  else
    result ← translate_libretranslate text;
    result ← (if negb (truthy result) then translate_mymemory text
              else mret result);
    _ ← emit (Sleep 500);
    mret (if truthy result then result else text).
End Translate.

(** ** Problem records *)

Record sample := Sample { input : str; output : str }.

(** The dictionary built by [parse_problem_html]. *)
Record problem := Problem {
  title : str;
  full_title : str;
  description : str;
  input_section : str;
  output_section : str;
  examples : list sample;
  note : str
}.

(** The dictionary built by [translate_problem]. *)
Record translated := Translated {
  tr_title : str;
  tr_description : str;
  tr_input_section : str;
  tr_output_section : str;
  tr_note : str;
  tr_examples : list sample
}.

Section TranslateProblem.
Variable net : translators.

Definition translate_problem (p : problem) : M translated :=
  t ← translate net (title p);
  d ← translate net (description p);
  i ← translate net (input_section p);
  o ← translate net (output_section p);
  n ← (if truthy (note p) then translate net (note p) else mret []);
  mret (Translated t d i o n (examples p)).
End TranslateProblem.

(** ** Parsed pages *)

(** A parsed page as BeautifulSoup presents it: text nodes and tags with
    their name, their [class] values and their children.  Other
    attributes, comments and the like play no part in the script. *)
#[warnings="-register-all"] Inductive node :=
| Text (s : str)
| Elem (name : str) (classes : list str) (kids : list node).

Definition str_eqb (a b : str) : bool := bool_decide (a = b).

(** The filter of [find(name, class_=cls)]. *)
Definition is_tag (nm cls : str) (n : node) : bool :=
  match n with
  | Text _ => false
  | Elem nm' classes _ => str_eqb nm nm' && existsb (str_eqb cls) classes
  end.

Definition is_named (nm : str) (n : node) : bool :=
  match n with
  | Text _ => false
  | Elem nm' _ _ => str_eqb nm nm'
  end.

(** [el.descendants]: everything below [el], in document order. *)
Fixpoint descendants (n : node) : list node :=
  match n with
  | Text _ => []
  | Elem _ _ kids =>
    (fix go (l : list node) : list node :=
       match l with
       | [] => []
       | k :: l' => k :: descendants k ++ go l'
       end) kids
  end.

Definition find_all (nm cls : str) (el : node) : list node :=
  filter (fun n => is_tag nm cls n = true) (descendants el).

Definition find (nm cls : str) (el : node) : option node :=
  head (find_all nm cls el).

(** [el.find("pre")]. *)
Definition find_named (nm : str) (el : node) : option node :=
  head (filter (fun n => is_named nm n = true) (descendants el)).

(** The first match below [n] together with the siblings that follow
    it, for [find_next_sibling]. *)
Fixpoint find_with_next (p : node -> bool) (n : node)
  : option (node * list node) :=
  match n with
  | Text _ => None
  | Elem _ _ kids =>
    (fix go (l : list node) : option (node * list node) :=
       match l with
       | [] => None
       | k :: l' =>
         if p k then Some (k, l')
         else match find_with_next p k with
              | Some r => Some r
              | None => go l'
              end
       end) kids
  end.

(** The children after [decompose()] of the first node among them and
    their descendants that satisfies [p]; the flag tells whether one was
    found. *)
Fixpoint remove_first (p : node -> bool) (n : node) : node * bool :=
  match n with
  | Text _ => (n, false)
  | Elem nm cs kids =>
    let r :=
      (fix go (l : list node) : list node * bool :=
         match l with
         | [] => ([], false)
         | k :: l' =>
           if p k then (l', true)
           else let (k', b) := remove_first p k in
                if b then (k' :: l', true)
                else let (l'', b') := go l' in (k :: l'', b')
         end) kids in
    (Elem nm cs (fst r), snd r)
  end.

(** The tree with the first node below [n] that satisfies [p] replaced
    by [f] of it: how a mutation of a found tag shows in its ancestors. *)
Fixpoint update_first (p : node -> bool) (f : node -> node) (n : node)
  : node * bool :=
  match n with
  | Text _ => (n, false)
  | Elem nm cs kids =>
    let r :=
      (fix go (l : list node) : list node * bool :=
         match l with
         | [] => ([], false)
         | k :: l' =>
           if p k then (f k :: l', true)
           else let (k', b) := update_first p f k in
                if b then (k' :: l', true)
                else let (l'', b') := go l' in (k :: l'', b')
         end) kids in
    (Elem nm cs (fst r), snd r)
  end.

(** [el.get_text()]: the text nodes below [el], concatenated. *)
Definition strings (el : node) : list str :=
  omap (fun n => match n with Text s => Some s | _ => None end)
       (descendants el).

Definition get_text (el : node) : str := concat (strings el).

(** [el.get_text(separator=" ", strip=True)]: every text node is
    stripped, the empty ones are dropped. *)
Definition get_text_stripped (el : node) : str :=
  join (u8 " ") (filter (fun s => truthy s = true) (map strip (strings el))).

(** ** Problem extractor *)

Definition DIV : str := u8 "div".

(** [re.sub(r"^[A-Z]\.\s*", "", s)]: without [re.MULTILINE] the anchor
    holds at the start of the string only, and the greedy [\s*] takes
    every whitespace character that follows the dot. *)
Definition strip_index (s : str) : str :=
  match s with
  | c :: 46 :: rest =>
    if (65 <=? c) && (c <=? 90) then drop_while isspace rest else s
  | _ => s
  end.

Definition parse_examples (sample_tests : node) : list sample :=
  match find DIV (u8 "sample-test") sample_tests with
  | None => []
  | Some sample_test =>
    let inputs := find_all DIV (u8 "input") sample_test in
    let outputs := find_all DIV (u8 "output") sample_test in
    map (fun io : node * node =>
           let (inp, out) := io in
           Sample (from_option get_text [] (find_named (u8 "pre") inp))
                  (from_option get_text [] (find_named (u8 "pre") out)))
        (zip inputs outputs)
  end.

(** What [parse_problem_html] returns: the empty dictionary or the
    seven-key one. *)
Inductive parsed :=
| EmptyDict
| Dict (p : problem).

Section Extract.
(** [html_to_markdown] prints the tag back to HTML, rewrites a few
    tags and parses the outcome again; printing and parsing belong to
    BeautifulSoup, so the function is a parameter here. *)
Variable html_to_markdown : node -> str.

Definition is_section_title : node -> bool :=
  is_tag DIV (u8 "section-title").

(** [extract_section(ps.find("div", class_=cls)) if ... else ""],
    together with [ps] after the [decompose()] it performs. *)
Definition extract_section (cls : str) (ps : node) : str * node :=
  match find DIV cls ps with
  | None => ([], ps)
  | Some div =>
    let cut := fun d => fst (remove_first is_section_title d) in
    (html_to_markdown (cut div), fst (update_first (is_tag DIV cls) cut ps))
  end.

(** [None] is the [AttributeError] raised when the statement block
    has no header. *)
Definition parse_problem_html (soup : node) : option parsed :=
  match find DIV (u8 "problem-statement") soup with
  | None => Some EmptyDict
  | Some ps =>
    match find_with_next (is_tag DIV (u8 "header")) ps with
    | None => None
    | Some (header, after_header) =>
      let title_el := find DIV (u8 "title") header in
      let full_title := from_option get_text_stripped [] title_el in
      let name := if truthy full_title then strip_index full_title else [] in
      let desc_div := head (filter (fun n => is_named DIV n = true) after_header) in
      let description := from_option html_to_markdown [] desc_div in
      let (input_section, ps) := extract_section (u8 "input-specification") ps in
      let (output_section, ps) := extract_section (u8 "output-specification") ps in
      let examples := from_option parse_examples []
                        (find DIV (u8 "sample-tests") ps) in
      let (note_section, ps) := extract_section (u8 "note") ps in
      Some (Dict (Problem name full_title description input_section
                          output_section examples note_section))
    end
  end.
End Extract.

(** ** Document renderer *)

Definition FENCE : str := u8 "```".

(** The body of [for i, ex in enumerate(translated["examples"], 1)],
    [i] being the running number and [total] the number of examples. *)
Fixpoint zh_example_lines (total : nat) (i : N) (exs : list sample)
  : list str :=
  match exs with
  | [] => []
  | ex :: rest =>
    let sub := if (1 <? total)%nat then u8 " " ++ str_of_N i else [] in
    [ []; u8 "### 输入" ++ sub;
      []; FENCE; strip (input ex); FENCE; [];
      u8 "### 输出";
      []; FENCE; strip (output ex); FENCE; [] ]
    ++ zh_example_lines total (N.succ i) rest
  end.

Fixpoint en_example_lines (i : N) (exs : list sample) : list str :=
  match exs with
  | [] => []
  | ex :: rest =>
    [ []; u8 "### Input";
      []; FENCE; strip (input ex); FENCE; [];
      u8 "### Output";
      []; FENCE; strip (output ex); FENCE; [] ]
    ++ en_example_lines (N.succ i) rest
  end.

(** The list [lines] of [build_zh_md] just before it is joined. *)
Definition zh_lines (t : translated) (problem_index author : str)
  : list str :=
  [ u8 "---"; u8 "author: " ++ author; u8 "---"; [];
    u8 "# " ++ problem_index ++ u8 ". " ++ tr_title t; [];
    u8 "## 题目描述"; [];
    tr_description t; [] ]
  ++ (if truthy (tr_input_section t)
      then [u8 "## 输入格式"; []; tr_input_section t; []] else [])
  ++ (if truthy (tr_output_section t)
      then [u8 "## 输出格式"; []; tr_output_section t; []] else [])
  ++ (match tr_examples t with
      | [] => []
      | exs => u8 "## 样例" :: zh_example_lines (length exs) 1 exs
      end)
  ++ (if truthy (tr_note t)
      then [u8 "## 注意"; []; tr_note t; []] else []).

Definition build_zh_md (p : problem) (t : translated) (contest_id : Z)
           (problem_index author : str) : str :=
  strip (join [NL] (zh_lines t problem_index author)) ++ [NL].

Definition en_lines (p : problem) (problem_index : str) : list str :=
  [ u8 "# " ++ problem_index ++ u8 ". " ++ title p; [];
    description p; [] ]
  ++ (if truthy (input_section p)
      then [u8 "## Input"; []; input_section p; []] else [])
  ++ (if truthy (output_section p)
      then [u8 "## Output"; []; output_section p; []] else [])
  ++ (match examples p with
      | [] => []
      | exs => u8 "## Examples" :: en_example_lines 1 exs
      end)
  ++ (if truthy (note p)
      then [u8 "## Note"; []; note p; []] else []).

Definition build_en_md (p : problem) (contest_id : Z) (problem_index : str)
  : str :=
  strip (join [NL] (en_lines p problem_index)) ++ [NL].

(** ** Problem metadata *)

(** One entry of [result.problems] in the standings answer. *)
Record meta_problem := MetaProblem {
  mp_index : str;
  mp_rating : option Z;
  mp_tags : option (list str)
}.

(** [MetaFailed] is anything that raises inside the [try] block. *)
Inductive meta_reply :=
| MetaFailed
| MetaJson (status_ok : bool) (problems : list meta_problem).

(** The dictionary [get_problem_meta] returns: empty, or with the keys
    [rating] (a number, or the string "?") and [tags]. *)
Record meta := Meta { rating : option Z; tags : list str }.

Definition TAG_MAP : list (str * str) :=
  [ (u8 "math", u8 "数学");
    (u8 "implementation", u8 "实现");
    (u8 "dp", u8 "DP");
    (u8 "greedy", u8 "贪心");
    (u8 "brute force", u8 "暴力");
    (u8 "constructive algorithms", u8 "构造");
    (u8 "sortings", u8 "排序");
    (u8 "binary search", u8 "二分");
    (u8 "graphs", u8 "图论");
    (u8 "trees", u8 "树");
    (u8 "strings", u8 "字符串");
    (u8 "data structures", u8 "数据结构");
    (u8 "geometry", u8 "几何");
    (u8 "number theory", u8 "数论");
    (u8 "combinatorics", u8 "组合数学");
    (u8 "two pointers", u8 "双指针");
    (u8 "bitmasks", u8 "位运算");
    (u8 "dfs and similar", u8 "DFS");
    (u8 "shortest paths", u8 "最短路");
    (u8 "probabilities", u8 "概率");
    (u8 "games", u8 "博弈");
    (u8 "flows", u8 "网络流");
    (u8 "dsu", u8 "并查集");
    (u8 "divide and conquer", u8 "分治");
    (u8 "hashing", u8 "哈希");
    (u8 "interactive", u8 "交互");
    (u8 "schedules", u8 "调度");
    (u8 "matrices", u8 "矩阵");
    (u8 "fft", u8 "FFT");
    (u8 "ternary search", u8 "三分");
    (u8 "expression parsing", u8 "表达式解析");
    (u8 "meet-in-the-middle", u8 "折半搜索");
    (u8 "2-sat", u8 "2-SAT");
    (u8 "chinese remainder theorem", u8 "中国剩余定理") ].

Fixpoint assoc (k : str) (m : list (str * str)) : option str :=
  match m with
  | [] => None
  | (k', v) :: m' => if str_eqb k k' then Some v else assoc k m'
  end.

(** ** Index synchroniser *)

Definition notnl (c : N) : bool := negb (c =? NL).

(** [[^\n]+\n] at the head of [s]: the matched text and what follows.
    The run of characters other than a newline is taken as long as it
    goes; a shorter run would have to be followed by a newline and is
    followed by one of its own characters instead, so backtracking never
    finds another match. *)
Definition line_nl (s : str) : option (str * str) :=
  match take_while notnl s, drop_while notnl s with
  | (_ :: _) as l, _ :: r => Some (l ++ [NL], r)
  | _, _ => None
  end.

(** The groups 2, 3 and 4 and the text after the match. *)
Record table_match := TableMatch {
  g_hdr : str;
  g_sep : str;
  g_row : str;
  m_rest : str
}.

(** [re.match] of
    [(<header>\n\n)([^\n]+\n)([^\n]+\n)([^\n]+)] at the head of [s];
    the header is escaped in the pattern and so matches itself. *)
Definition match_table (contest_header s : str) : option table_match :=
  if starts_with (contest_header ++ [NL; NL]) s then
    match line_nl (drop (length contest_header + 2) s) with
    | Some (g2, s2) =>
      match line_nl s2 with
      | Some (g3, s3) =>
        match take_while notnl s3 with
        | [] => None
        | g4 => Some (TableMatch g2 g3 g4 (drop_while notnl s3))
        end
      | None => None
      end
    | None => None
    end
  else None.

(** [re.search]: the match at the leftmost position that has one, with
    [content[:m.start()]]. *)
Fixpoint search_table (contest_header s : str) : option (str * table_match) :=
  match match_table contest_header s with
  | Some m => Some ([], m)
  | None =>
    match s with
    | [] => None
    | c :: s' =>
      match search_table contest_header s' with
      | Some (before, m) => Some (c :: before, m)
      | None => None
      end
    end
  end.

(** Lines 339-346, and again 353-359: the table of the contest gets one
    more column; without a match the content stays as it is. *)
Definition widen_table (contest_header cell entry content : str) : str :=
  match search_table contest_header content with
  | Some (before, m) =>
    let pre := contest_header ++ [NL; NL] in
    let hdr := rstrip_bar (rstrip (g_hdr m)) ++ u8 "|" ++ cell ++ u8 "|" ++ [NL] in
    let sep := rstrip_bar (rstrip (g_sep m)) ++ u8 "|:-:|" ++ [NL] in
    let row := rstrip_bar (rstrip (g_row m)) ++ u8 "|" ++ entry ++ u8 "|" ++ [NL] in
    before ++ pre ++ hdr ++ sep ++ row ++ m_rest m
  | None => content
  end.

(** [\n<header>\n\n|<cell>|\n|:-:|\n|<entry>|\n\n]. *)
Definition new_block (contest_header cell entry : str) : str :=
  [NL] ++ contest_header ++ [NL; NL] ++ u8 "|" ++ cell ++ u8 "|" ++ [NL]
  ++ u8 "|:-:|" ++ [NL] ++ u8 "|" ++ entry ++ u8 "|" ++ [NL; NL].

Definition zh_index : path := [u8 "docs"; u8 "zh"; u8 "problem"; u8 "index.md"].
Definition en_index : path := [u8 "docs"; u8 "en"; u8 "problem"; u8 "index.md"].

Definition zh_fragment (contest_id : Z) (problem_index : str) : str :=
  u8 "/problem/" ++ str_of_Z contest_id ++ u8 "/" ++ problem_index.
Definition en_fragment (contest_id : Z) (problem_index : str) : str :=
  u8 "/en/problem/" ++ str_of_Z contest_id ++ u8 "/" ++ problem_index.

Definition contest_header_of (contest_id : Z) : str :=
  u8 "## " ++ str_of_Z contest_id.

Definition header_cell (problem_index rating : str) : str :=
  problem_index ++ u8 " [" ++ rating ++ u8 "]".

Definition zh_entry_of (contest_id : Z) (problem_index en_title zh_title tags_zh : str)
  : str :=
  u8 "[" ++ en_title ++ u8 " \| " ++ zh_title ++ u8 "]("
  ++ zh_fragment contest_id problem_index ++ u8 ")（" ++ tags_zh ++ u8 "）".

Definition en_entry_of (contest_id : Z) (problem_index en_title : str)
           (tags_en : list str) : str :=
  u8 "[" ++ en_title ++ u8 "](" ++ en_fragment contest_id problem_index
  ++ u8 ") (" ++ join (u8 ", ") tags_en ++ u8 ")".

(** What lines 331-346 make of the content of one index file, and lines
    350-359 of the other. *)
Definition patch_index (contest_header cell entry content : str) : str :=
  if negb (contains contest_header content)
  then rstrip content ++ new_block contest_header cell entry
  else widen_table contest_header cell entry content.

Definition update_index (contest_id : Z) (problem_index en_title zh_title
                         rating : str) (tags_en : list str) (tags_zh : str)
  : M unit :=
  zh_there ← exists_file zh_index;
  if negb zh_there then mret tt
  else
    content ← read_text zh_index;
    if contains (zh_fragment contest_id problem_index) content then mret tt
    else
      let contest_header := contest_header_of contest_id in
      let zh_entry := zh_entry_of contest_id problem_index en_title zh_title tags_zh in
      let en_entry := en_entry_of contest_id problem_index en_title tags_en in
      let cell := header_cell problem_index rating in
      _ ← write_text zh_index (patch_index contest_header cell zh_entry content);
      en_there ← exists_file en_index;
      if negb en_there then mret tt
      else
        en_content ← read_text en_index;
        if contains (en_fragment contest_id problem_index) en_content
        then mret tt
        else write_text en_index
                        (patch_index contest_header cell en_entry en_content).

(** ** Problem fetcher and run controller *)

(** What the problem page answers: [PageFailed] is anything that raises
    before the page is parsed (connection error, HTTP error status). *)
Inductive page_reply :=
| PageFailed (e : str)
| PageHtml (soup : node).

Record site := Site {
  page : list event -> Z -> str -> page_reply;
  standings : list event -> Z -> meta_reply
}.

(** [repo_root / "docs" / lang / "problem" / str(contest_id) /
    f"{problem_index}.md"], for a problem index that is a file name: one
    without "/" and without the null character.  With a "/" in the
    index the joined path has more components, which the operating
    system resolves (".." included); which file that is lies outside
    this model, and [plain_index] marks the indices inside it. *)
Definition plain_index (problem_index : str) : bool :=
  forallb (fun c => negb (c =? 47) && negb (c =? 0)) problem_index.

Definition md_file (lang : str) (contest_id : Z) (problem_index : str) : path :=
  [u8 "docs"; lang; u8 "problem"; str_of_Z contest_id; problem_index ++ u8 ".md"].

Section Run.
(** [str.upper] and [str.lower] are Python's own, with their Unicode
    case tables. *)
Variables upper lower : str -> str.
Variable html_to_markdown : node -> str.
Variable cf : site.
Variable net : translators.

(** [None] is Python's [None]. *)
Definition fetch_problem (contest_id : Z) (problem_index : str)
  : M (option parsed) :=
  h ← history;
  _ ← emit (PageRequest contest_id problem_index);
  match page cf h contest_id problem_index with
  | PageFailed e =>
    _ ← emit (Stderr (u8 "抓取失败: " ++ e));
    mret None
  | PageHtml soup =>
    match parse_problem_html html_to_markdown soup with
    | Some d => mret (Some d)
    | None =>
      _ ← emit (Stderr (u8 "抓取失败: 'NoneType' object has no attribute 'find'"));
      mret None
    end
  end.

(** [None] is the empty dictionary. *)
Definition get_problem_meta (contest_id : Z) (problem_index : str)
  : M (option meta) :=
  h ← history;
  _ ← emit (MetaRequest contest_id);
  match standings cf h contest_id with
  | MetaFailed => mret (Some (Meta None []))
  | MetaJson false _ => mret None
  | MetaJson true ps =>
    match head (filter (fun p => mp_index p = problem_index) ps) with
    | Some p => mret (Some (Meta (mp_rating p) (default [] (mp_tags p))))
    | None => mret (Some (Meta None []))
    end
  end.

Definition tags_to_chinese (tags : list str) : str :=
  join (u8 "，") (map (fun t => default t (assoc (lower t) TAG_MAP)) tags).

Definition run_translate (contest_id : Z) (problem_index author : str)
           (force : bool) : M bool :=
  let problem_index := upper problem_index in
  let cf_name := u8 "CF" ++ str_of_Z contest_id ++ problem_index in
  zh_there ← exists_file (md_file (u8 "zh") contest_id problem_index);
  if zh_there && negb force then
    _ ← emit (Stdout (u8 "跳过 " ++ cf_name
                      ++ u8 "（已存在，使用 --force 强制覆盖）"));
    mret true
  else
    _ ← emit (Stdout (u8 "正在处理 " ++ cf_name ++ u8 "..."));
    fetched ← fetch_problem contest_id problem_index;
    match fetched with
    | None | Some EmptyDict =>
      _ ← emit (Stdout (u8 "  抓取失败，跳过"));
      mret false
    | Some (Dict p) =>
      m ← get_problem_meta contest_id problem_index;
      _ ← emit (Sleep 1000);
      t ← translate_problem net p;
      let rating := from_option str_of_Z (u8 "?") (m ≫= rating) in
      let tags_en := from_option tags [] m in
      let tags_zh := tags_to_chinese tags_en in
      let zh_md := build_zh_md p t contest_id problem_index author in
      let en_md := build_en_md p contest_id problem_index in
      _ ← write_text (md_file (u8 "zh") contest_id problem_index) zh_md;
      _ ← write_text (md_file (u8 "en") contest_id problem_index) en_md;
      _ ← update_index contest_id problem_index (title p) (tr_title t)
                       rating tags_en tags_zh;
      _ ← emit (Stdout (u8 "  已保存 docs/zh/problem/" ++ str_of_Z contest_id
                        ++ u8 "/" ++ problem_index ++ u8 ".md"));
      mret true
    end.
End Run.

(** ** Vocabulary of the statements *)

(** Translation services that are down, and ones that answer. *)
Definition net_down : translators :=
  Translators (fun _ _ => LibreFailed (u8 "timeout"))
              (fun _ _ => MyMemoryFailed (u8 "timeout")).

Definition net_echo : translators :=
  Translators (fun _ q => LibreJson (Some (u8 "译:" ++ q)))
              (fun _ q => MyMemoryJson 200 (Some (u8 "译:" ++ q))).

Definition empty_world : world := World ∅ [].

(** The lines of a document. *)
Fixpoint lines_of (s : str) : list str :=
  match s with
  | [] => [[]]
  | c :: s' =>
    if c =? NL then [] :: lines_of s'
    else match lines_of s' with
         | [] => [[c]]
         | l :: ls => (c :: l) :: ls
         end
  end.

(** The class [[A-Z]]. *)
Definition is_upper (c : N) : bool := (65 <=? c) && (c <=? 90).

(** [inp.find("pre").get_text()], or the empty string. *)
Definition pre_text (block : node) : str :=
  from_option get_text [] (find_named (u8 "pre") block).

(** A table line as the synchroniser writes it: every cell is closed by
    a bar. *)
Definition table_line (cells : list str) : str :=
  u8 "|" ++ concat (map (fun c => c ++ u8 "|") cells).

(** The cells of a line the synchroniser can widen without touching
    them: no newline inside, and the last cell ends in a character that
    is neither blank nor a bar (as "]", ":", ")" and "）" do). *)
Definition ends_solid (cell : str) : bool :=
  match last cell with
  | Some c => negb (isspace c) && negb (c =? BAR)
  | None => false
  end.

Definition good_cells (cells : list str) : bool :=
  forallb (forallb notnl) cells && from_option ends_solid false (last cells).

(** What [update_index] makes of the documentation tree. *)
Definition index_files (cid : Z) (idx en_title zh_title rating : str)
           (tags_en : list str) (tags_zh : str) (fs : gmap path str)
  : gmap path str :=
  let hdr := contest_header_of cid in
  let cell := header_cell idx rating in
  match text_of fs zh_index with
  | None => fs
  | Some content =>
    if contains (zh_fragment cid idx) content then fs
    else
      let fs1 := <[zh_index := patch_index hdr cell
                     (zh_entry_of cid idx en_title zh_title tags_zh) content]> fs in
      match text_of fs en_index with
      | None => fs1
      | Some en_content =>
        if contains (en_fragment cid idx) en_content then fs1
        else <[en_index := patch_index hdr cell
                 (en_entry_of cid idx en_title tags_en) en_content]> fs1
      end
  end.

(** The lines [run_translate] prints around the fetch. *)
Definition processing (contest_id : Z) (problem_index : str) : event :=
  Stdout (u8 "正在处理 " ++ (u8 "CF" ++ str_of_Z contest_id ++ problem_index)
          ++ u8 "...").
Definition given_up : event := Stdout (u8 "  抓取失败，跳过").

(** The text of an index document around one contest section: what
    precedes the header, the three table lines, and what follows the
    data line. *)
Definition section_text (contest_header pre : str) (hcells scells rcells : list str)
           (post : str) : str :=
  pre ++ contest_header ++ [NL; NL]
  ++ table_line hcells ++ [NL] ++ table_line scells ++ [NL]
  ++ table_line rcells ++ post.

(** [content] holds the section of the contest in the three-line shape,
    and this is the place the pattern of [update_index] finds: nothing
    matches further left. *)
Definition section_at (contest_header pre : str) (hcells scells rcells : list str)
           (post content : str) : Prop :=
  content = section_text contest_header pre hcells scells rcells post
  /\ good_cells hcells = true /\ good_cells scells = true
  /\ good_cells rcells = true
  /\ (post = [] \/ exists post', post = NL :: post')
  /\ forall k, (k < length pre)%nat ->
               match_table contest_header (drop k content) = None.

(** The thirteen lines one example adds to a document. *)
Definition example_block (input_heading output_heading : str) (ex : sample)
  : list str :=
  [ []; input_heading; []; FENCE; strip (input ex); FENCE; [];
    output_heading; []; FENCE; strip (output ex); FENCE; [] ].

(** A record with two examples, and its translated record. *)
Definition two_samples : problem :=
  Problem (u8 "T") (u8 "A. T") (u8 "d") [] []
          [Sample (u8 "x") (u8 "y"); Sample (u8 "z") (u8 "w")] [].
Definition two_samples_zh : translated :=
  Translated (u8 "T") (u8 "d") [] [] [] (examples two_samples).

(** The level-three headings of a document. *)
Definition headings (doc : str) : list str :=
  filter (fun l => starts_with (u8 "###") l = true) (lines_of doc).

(** A page whose statement holds the given header text. *)
Definition page_titled (t : str) : node :=
  Elem (u8 "[document]") []
    [Elem DIV [u8 "problem-statement"]
       [Elem DIV [u8 "header"] [Elem DIV [u8 "title"] [Text t]];
        Elem DIV [] [Text (u8 "statement")]]].

(** A stand-in for [html_to_markdown] where its outcome does not
    matter. *)
Definition no_markdown : node -> str := fun _ => [].

(** A sample-tests container whose blocks are not wrapped in a
    sample-test tag. *)
Definition bare_sample_tests : node :=
  Elem DIV [u8 "sample-tests"]
    [Elem DIV [u8 "input"] [Elem (u8 "pre") [] [Text (u8 "1")]];
     Elem DIV [u8 "output"] [Elem (u8 "pre") [] [Text (u8 "2")]]].

(** Stand-ins for Python's case mappings on ASCII letters. *)
Definition ascii_upper (s : str) : str :=
  map (fun c => if (97 <=? c) && (c <=? 122) then c - 32 else c) s.
Definition ascii_lower (s : str) : str :=
  map (fun c => if (65 <=? c) && (c <=? 90) then c + 32 else c) s.

(** A site that serves one statement and no standings. *)
Definition demo_site : site :=
  Site (fun _ _ _ => PageHtml (page_titled (u8 "A. Example Title")))
       (fun _ _ => MetaFailed).

(** A site whose page has no problem statement. *)
Definition blank_site : site :=
  Site (fun _ _ _ => PageHtml (Elem (u8 "[document]") [] [Text (u8 "moved")]))
       (fun _ _ => MetaFailed).

(** Two index documents with the section of contest 12. *)
Definition demo_zh_index : str :=
  section_text (u8 "## 12") (u8 "# 题目" ++ [NL])
               [u8 "A [800]"] [u8 ":-:"]
               [u8 "[Theatre Square \| 剧院广场](/problem/12/A)（数学）"]
               [NL; NL].
Definition demo_en_index : str :=
  section_text (u8 "## 12") (u8 "# Problems" ++ [NL])
               [u8 "A [800]"] [u8 ":-:"]
               [u8 "[Theatre Square](/en/problem/12/A) (math)"]
               [NL; NL].
Definition demo_world : world :=
  World {[ zh_index := demo_zh_index; en_index := demo_en_index ]} [].

(** The pattern matches at none of the first [n] positions. *)
Definition no_match_before (hdr content : str) (n : nat) : bool :=
  forallb (fun k => match match_table hdr (drop k content) with
                    | None => true
                    | Some _ => false
                    end) (seq 0 n).

(** A computation that leaves the documentation tree as it is. *)
Definition keeps_files {A} (m : M A) : Prop :=
  forall w, files (snd (m w)) = files w.

(** A sample-tests container as the site serves it: two inputs, one
    output. *)
Definition wrapped_sample_tests : node :=
  Elem DIV [u8 "sample-tests"]
    [Elem DIV [u8 "section-title"] [Text (u8 "Examples")];
     Elem DIV [u8 "sample-test"]
       [Elem DIV [u8 "input"] [Elem DIV [u8 "title"] [Text (u8 "Input")];
                               Elem (u8 "pre") [] [Text (u8 "4 2")]];
        Elem DIV [u8 "output"] [Elem DIV [u8 "title"] [Text (u8 "Output")];
                                Elem (u8 "pre") [] [Text (u8 "8")]];
        Elem DIV [u8 "input"] [Elem (u8 "pre") [] [Text (u8 "5 5")]]]].

(** The part of the pattern after the header: groups 2, 3 and 4. *)
Definition three_lines (s : str) : option table_match :=
  match line_nl s with
  | Some (g2, s2) =>
    match line_nl s2 with
    | Some (g3, s3) =>
      match take_while notnl s3 with
      | [] => None
      | g4 => Some (TableMatch g2 g3 g4 (drop_while notnl s3))
      end
    | None => None
    end
  | None => None
  end.

(** Counting in a trace: the pauses of [translate] and the texts sent to
    LibreTranslate. *)
Definition is_pause (e : event) : bool :=
  match e with Sleep 500 => true | _ => false end.
Definition is_libre (e : event) : bool :=
  match e with LibreRequest _ => true | _ => false end.
Definition count (f : event -> bool) (evs : list event) : nat :=
  length (List.filter f evs).

(** The texts [translate_problem] passes to [translate]. *)
Definition fields_sent (p : problem) : list str :=
  [title p; description p; input_section p; output_section p]
  ++ (if truthy (note p) then [note p] else []).

(** A page whose statement block has no header, and a site serving it. *)
Definition headerless_page : node :=
  Elem (u8 "[document]") []
    [Elem DIV [u8 "problem-statement"] [Elem DIV [] [Text (u8 "statement")]]].
Definition headerless_site : site :=
  Site (fun _ _ _ => PageHtml headerless_page) (fun _ _ => MetaFailed).

(** A site whose standings list problem A of the contest. *)
Definition rated_site : site :=
  Site (fun _ _ _ => PageHtml (page_titled (u8 "A. Example Title")))
       (fun _ _ => MetaJson true
                     [MetaProblem (u8 "A") (Some 1000%Z) (Some [u8 "math"])]).

(** A tree whose translated index has a title line only, and one with
    the demo index and a file of its own. *)
Definition fresh_world : world :=
  World {[ zh_index := u8 "# 题目" ++ [NL] ]} [].
Definition readme : path := [u8 "README.md"].
Definition readme_world : world :=
  World {[ zh_index := demo_zh_index; readme := u8 "hello" ]} [].

(** A text without a carriage return. *)
Definition no_cr (s : str) : bool := forallb (fun c => negb (c =? CR)) s.

(** A text that is one line whether it is written or read back. *)
Definition plain_line (s : str) : bool := forallb notnl s && no_cr s.

(** Both translation services fail on [text] when [translate] asks
    them in the world [w]: LibreTranslate returns the empty string (the
    request raised, or the answer was empty), and so does MyMemory, asked
    right after it. *)
Definition fails_at (net : translators) (text : str) (w : world) : Prop :=
  fst (translate_libretranslate net text w) = []
  /\ fst (translate_mymemory net text
             (snd (translate_libretranslate net text w))) = [].

(** Translation services with a quota: LibreTranslate raises until it
    has been asked once, and MyMemory answers that its quota is used
    up. *)
Definition net_quota : translators :=
  Translators (fun h q => if existsb is_libre h
                          then LibreJson (Some (u8 "译:" ++ q))
                          else LibreFailed (u8 "timeout"))
              (fun _ _ => MyMemoryJson 429 None).

(** The world in which [run_translate] calls [translate_problem], when
    it started in [w] and was not skipped. *)
Definition at_translation (w : world) (contest_id : Z) (problem_index : str)
  : world :=
  World (files w)
        (trace w ++ [processing contest_id problem_index;
                     PageRequest contest_id problem_index;
                     MetaRequest contest_id; Sleep 1000]).

(** The demo index with the line ends of another system in its title
    line. *)
Definition crlf_zh_index : str :=
  u8 "# 题目" ++ [CR; NL]
  ++ section_text (u8 "## 12") [] [u8 "A [800]"] [u8 ":-:"]
                  [u8 "[Theatre Square \| 剧院广场](/problem/12/A)（数学）"]
                  [NL; NL].
Definition crlf_world : world := World {[ zh_index := crlf_zh_index ]} [].

Arguments u8 : simpl never.
Arguments str_of_Z : simpl never.
Arguments contains : simpl never.
Arguments md_file : simpl never.
Arguments build_zh_md : simpl never.
Arguments build_en_md : simpl never.

(** * Properties *)

(** ** Strings *)

Example u8_ascii : u8 "## 12" = [35; 35; 32; 49; 50].
Proof. reflexivity. Qed.

Example u8_cjk : u8 "输入（" = [36755; 20837; 65288].
Proof. reflexivity. Qed.

Example str_of_Z_ex : str_of_Z 1520 = u8 "1520" /\ str_of_Z (-7) = u8 "-7"
                      /\ str_of_Z 0 = u8 "0".
Proof. repeat split. Qed.

Example rstrip_ex : rstrip_bar (rstrip (u8 "|A [800]||  ")) = u8 "|A [800]".
Proof. reflexivity. Qed.

Lemma drop_while_all p s : forallb p s = true -> drop_while p s = [].
Proof.
  induction s as [|c s IH]; simpl; [done|].
  intros [Hc Hs]%andb_prop. rewrite Hc. auto.
Qed.

Lemma forallb_rev p (s : str) : forallb p (rev s) = forallb p s.
Proof.
  induction s as [|c s IH]; simpl; [done|].
  rewrite forallb_app, IH. simpl. rewrite andb_true_r. apply andb_comm.
Qed.

Lemma strip_blank s : forallb isspace s = true -> strip s = [].
Proof.
  intros H. unfold strip, rstrip, lstrip, rstrip_by, lstrip_by.
  rewrite (drop_while_all isspace (rev s)) by (by rewrite forallb_rev). done.
Qed.

(** ** Running a computation *)

Lemma bind_run {A B} (m : M A) (f : A -> M B) w :
  (m ≫= f) w = f (fst (m w)) (snd (m w)).
Proof. unfold mbind, M_bind. by destruct (m w). Qed.

(** ** Line ends *)

Lemma universal_newlines_cons c s :
  c <> CR -> universal_newlines (c :: s) = c :: universal_newlines s.
Proof.
  intros H. cbn [universal_newlines].
  by rewrite (proj2 (N.eqb_neq c CR) H).
Qed.

Lemma universal_newlines_crlf s :
  universal_newlines (CR :: NL :: s) = NL :: universal_newlines s.
Proof. reflexivity. Qed.

Lemma universal_newlines_cr s :
  head s <> Some NL -> universal_newlines (CR :: s) = NL :: universal_newlines s.
Proof.
  intros H. destruct s as [|d s]; [done|].
  cbn [universal_newlines]. change (CR =? CR) with true. cbv iota.
  destruct (N.eqb_spec d NL) as [->|_]; [by destruct H|done].
Qed.

(** Induction along the way [universal_newlines] reads a text. *)
Lemma universal_newlines_ind (P : str -> Prop) :
  P [] ->
  (forall c s, c <> CR -> P s -> P (c :: s)) ->
  (forall s, P s -> P (CR :: NL :: s)) ->
  (forall s, head s <> Some NL -> P s -> P (CR :: s)) ->
  forall s, P s.
Proof.
  intros Hnil Hc Hcrlf Hcr s.
  assert (H : forall n s, (length s <= n)%nat -> P s).
  { clear s. induction n as [|n IH]; intros s Hl.
    - destruct s; [done|]. cbn in Hl. lia.
    - destruct s as [|c s]; [done|]. cbn [length] in Hl.
      destruct (N.eq_dec c CR) as [->|Hne]; [|apply Hc; [done|apply IH; lia]].
      destruct s as [|d s]; [by apply Hcr|].
      destruct (N.eq_dec d NL) as [->|Hd].
      + apply Hcrlf, IH. cbn [length] in Hl. lia.
      + apply Hcr; [cbn; congruence|apply IH; lia]. }
  by apply (H (length s)).
Qed.

Lemma universal_newlines_no_cr s : no_cr (universal_newlines s) = true.
Proof.
  induction s as [|c s Hc IH|s IH|s Hs IH] using universal_newlines_ind.
  - done.
  - rewrite universal_newlines_cons by done. cbn [no_cr forallb].
    by rewrite (proj2 (N.eqb_neq c CR) Hc).
  - by rewrite universal_newlines_crlf.
  - by rewrite universal_newlines_cr.
Qed.

Lemma no_cr_cons c s : no_cr (c :: s) = true -> c <> CR /\ no_cr s = true.
Proof.
  cbn [no_cr forallb]. intros [Hc Hs]%andb_prop. split; [|done].
  apply negb_true_iff in Hc. by apply N.eqb_neq.
Qed.

(** On a clean text reading changes nothing, before whatever follows. *)
Lemma universal_newlines_clean x y :
  no_cr x = true -> universal_newlines (x ++ y) = x ++ universal_newlines y.
Proof.
  induction x as [|c x IH]; [done|].
  intros [Hc Hx]%no_cr_cons. cbn [app].
  rewrite universal_newlines_cons by done. by rewrite IH.
Qed.

Lemma universal_newlines_id s : no_cr s = true -> universal_newlines s = s.
Proof.
  intros H. rewrite <- (app_nil_r s) at 1.
  rewrite universal_newlines_clean by done. apply app_nil_r.
Qed.

Lemma universal_newlines_twice s :
  universal_newlines (universal_newlines s) = universal_newlines s.
Proof. apply universal_newlines_id, universal_newlines_no_cr. Qed.

(** What is read of a text ends with what is read of its end. *)
Lemma universal_newlines_end a y :
  exists a', universal_newlines (a ++ y) = a' ++ universal_newlines y.
Proof.
  induction a as [|c a Hc IH|a IH|a Ha IH] using universal_newlines_ind.
  - by exists [].
  - destruct IH as [a' E]. exists (c :: a'). cbn [app].
    rewrite universal_newlines_cons by done. by rewrite E.
  - destruct IH as [a' E]. exists (NL :: a'). cbn [app].
    by rewrite universal_newlines_crlf, E.
  - destruct a as [|d a].
    + cbn [app]. destruct y as [|e y]; [by exists [NL]|].
      destruct (N.eq_dec e NL) as [->|He].
      * exists []. by rewrite universal_newlines_crlf.
      * exists [NL]. rewrite universal_newlines_cr by (cbn; congruence). done.
    + destruct IH as [a' E]. exists (NL :: a'). cbn [app] in E |- *.
      rewrite universal_newlines_cr by done. by rewrite E.
Qed.

(** ** Translation client and orchestrator *)

(** C9: a text that is empty or made of whitespace only comes back as it
    is, and the world is left as it was: no request to either
    translation service and no pause enter the trace. *)
Theorem translate_blank_untouched net text w :
  forallb isspace text = true ->
  translate net text w = (text, w).
Proof.
  intros H. unfold translate.
  rewrite (strip_blank _ H). simpl. by rewrite orb_true_r.
Qed.

Lemma translate_blank_untouched_witness :
  forallb isspace (u8 " 	　") = true
  /\ translate net_echo (u8 " 	　") empty_world = (u8 " 	　", empty_world).
Proof.
  split; [reflexivity|]. apply translate_blank_untouched. reflexivity.
Defined.

(** Both services returned the empty string at this call. *)
Lemma translate_failed net text w :
  fst (translate_libretranslate net text w) = [] ->
  fst (translate_mymemory net text (snd (translate_libretranslate net text w))) = [] ->
  fst (translate net text w) = text.
Proof.
  intros Hl Hm. unfold translate.
  destruct (negb (truthy text) || negb (truthy (strip text))); [done|].
  rewrite bind_run, Hl. cbn [truthy negb].
  rewrite bind_run, Hm. by rewrite bind_run.
Qed.

(** C2: the examples of the translated record are the examples of the
    source record, whatever the translation services answer. *)
Theorem translate_problem_examples net p w :
  tr_examples (fst (translate_problem net p w)) = examples p.
Proof.
  unfold translate_problem, mbind, M_bind.
  repeat match goal with
         | |- context [let (_, _) := ?c in _] => destruct c
         end.
  done.
Qed.

(** ** Computations that leave the documentation tree alone *)

Lemma keeps_ret {A} (a : A) : keeps_files (mret a).
Proof. done. Qed.

Lemma keeps_bind {A B} (m : M A) (f : A -> M B) :
  keeps_files m -> (forall a, keeps_files (f a)) -> keeps_files (m ≫= f).
Proof.
  intros Hm Hf w. unfold mbind, M_bind.
  specialize (Hm w). destruct (m w) as [a w1]. simpl in *.
  by rewrite Hf.
Qed.

Lemma keeps_emit e : keeps_files (emit e).
Proof. done. Qed.

Lemma keeps_history : keeps_files history.
Proof. done. Qed.

Ltac keeps :=
  repeat first
    [ apply keeps_ret | apply keeps_emit | apply keeps_history
    | apply keeps_bind; [|intros ?]
    | match goal with
      | |- keeps_files (match ?x with _ => _ end) => destruct x
      end ].

Lemma keeps_translate net text : keeps_files (translate net text).
Proof. unfold translate, translate_libretranslate, translate_mymemory. keeps. Qed.

Lemma keeps_translate_problem net p : keeps_files (translate_problem net p).
Proof.
  unfold translate_problem.
  repeat (apply keeps_bind; [try apply keeps_translate | intros ?]).
  - destruct (truthy (note p)); [apply keeps_translate | apply keeps_ret].
  - apply keeps_ret.
Qed.

Lemma keeps_fetch_problem h2m cf cid idx :
  keeps_files (fetch_problem h2m cf cid idx).
Proof. unfold fetch_problem. keeps. Qed.

Lemma keeps_get_problem_meta cf cid idx :
  keeps_files (get_problem_meta cf cid idx).
Proof. unfold get_problem_meta. keeps. Qed.

(** [translate_problem] passes its fields to [translate] one after the
    other, each in the world the one before left. *)
Lemma translate_problem_run net p w :
  let r1 := translate net (title p) w in
  let r2 := translate net (description p) (snd r1) in
  let r3 := translate net (input_section p) (snd r2) in
  let r4 := translate net (output_section p) (snd r3) in
  let r5 := (if truthy (note p) then translate net (note p) else mret [])
              (snd r4) in
  translate_problem net p w
  = (Translated (fst r1) (fst r2) (fst r3) (fst r4) (fst r5) (examples p),
     snd r5).
Proof. unfold translate_problem. by rewrite !bind_run. Qed.

(** ** Index synchroniser and run controller: evaluation *)

Lemma world_eta w : World (files w) (trace w) = w.
Proof. by destruct w. Qed.

Lemma zh_en_index : zh_index <> en_index.
Proof. by intros H; inversion H. Qed.

Lemma update_index_files cid idx en_title zh_title rating tags_en tags_zh w :
  update_index cid idx en_title zh_title rating tags_en tags_zh w
  = (tt, World (index_files cid idx en_title zh_title rating tags_en tags_zh (files w))
               (trace w)).
Proof.
  unfold update_index, index_files, mbind, M_bind, exists_file, read_text,
    write_text, text_of.
  destruct (files w !! zh_index) as [stored|] eqn:Hz.
  2:{ rewrite bool_decide_eq_false_2 by apply is_Some_None.
      cbn [fmap option_fmap option_map negb]. by rewrite world_eta. }
  rewrite bool_decide_eq_true_2 by eauto. cbn [negb]. cbv beta.
  rewrite Hz. cbn [fmap option_fmap option_map default from_option id].
  destruct (contains (zh_fragment cid idx) (universal_newlines stored));
    [by rewrite world_eta|].
  cbn [files trace]. rewrite lookup_insert_ne by apply zh_en_index.
  destruct (files w !! en_index) as [en_stored|] eqn:He.
  2:{ by rewrite bool_decide_eq_false_2 by apply is_Some_None. }
  rewrite bool_decide_eq_true_2 by eauto. cbn [negb]. cbv beta.
  cbn [files trace]. rewrite lookup_insert_ne by apply zh_en_index.
  rewrite He. cbn [fmap option_fmap option_map default from_option id].
  by destruct (contains (en_fragment cid idx) (universal_newlines en_stored)).
Qed.

Lemma index_files_elsewhere cid idx en_title zh_title rating tags_en tags_zh fs q :
  q <> zh_index -> q <> en_index ->
  index_files cid idx en_title zh_title rating tags_en tags_zh fs !! q = fs !! q.
Proof.
  intros Hz He. unfold index_files.
  repeat case_match; rewrite ?lookup_insert_ne by done; done.
Qed.

Lemma md_file_not_index lang lang' cid idx :
  md_file lang cid idx <> [u8 "docs"; lang'; u8 "problem"; u8 "index.md"].
Proof. unfold md_file. intros H. by apply (f_equal length) in H. Qed.

Lemma md_file_zh_en cid idx :
  md_file (u8 "zh") cid idx <> md_file (u8 "en") cid idx.
Proof. unfold md_file. intros H. by inversion H. Qed.

Section RunFacts.
Variables upper lower : str -> str.
Variable html_to_markdown : node -> str.
Variable cf : site.
Variable net : translators.

Local Abbreviation run := (run_translate upper lower html_to_markdown cf net).

Lemma run_translate_skipped cid idx author w c :
  files w !! md_file (u8 "zh") cid (upper idx) = Some c ->
  exists line, run cid idx author false w
               = (true, World (files w) (trace w ++ [Stdout line])).
Proof.
  intros H. unfold run, run_translate.
  rewrite bind_run. unfold exists_file. cbn [fst snd].
  rewrite H. rewrite bool_decide_eq_true_2 by eauto. cbn [andb negb].
  rewrite bind_run. eauto.
Qed.

Lemma run_translate_outcome cid idx author force w :
  let r := run cid idx author force w in
  (fst r = true /\ is_Some (files (snd r) !! md_file (u8 "zh") cid (upper idx)))
  \/ (fst r = false /\ files (snd r) = files w).
Proof.
  unfold run, run_translate.
  rewrite bind_run. unfold exists_file. cbn [fst snd].
  destruct (bool_decide _ && negb force) eqn:Hskip.
  { left. rewrite bind_run. cbn. split; [done|].
    apply andb_prop in Hskip as [Hs _]. by apply bool_decide_eq_true_1 in Hs. }
  rewrite bind_run. cbn [emit fst snd]. rewrite bind_run.
  set (w1 := World _ _).
  pose proof (keeps_fetch_problem html_to_markdown cf cid (upper idx) w1) as Hf.
  destruct (fetch_problem _ _ _ _ w1) as [fetched w2]. cbn [fst snd] in *.
  destruct fetched as [[|p]|]; [right | | right];
    try (rewrite bind_run; cbn; split; [done|by rewrite Hf]).
  left. rewrite bind_run.
  pose proof (keeps_get_problem_meta cf cid (upper idx) w2) as Hm.
  destruct (get_problem_meta _ _ _ w2) as [m w3]. cbn [fst snd] in *.
  rewrite bind_run. cbn [emit fst snd]. rewrite bind_run.
  set (w4 := World _ _).
  pose proof (keeps_translate_problem net p w4) as Ht.
  destruct (translate_problem net p w4) as [t w5]. cbn [fst snd] in *.
  rewrite !bind_run. unfold write_text. cbn [fst snd files trace].
  rewrite update_index_files. cbn [fst snd files trace emit mret M_ret].
  split; [done|].
  rewrite index_files_elsewhere by apply md_file_not_index.
  rewrite lookup_insert_ne by (apply not_eq_sym, md_file_zh_en).
  rewrite lookup_insert_eq. eauto.
Qed.

Lemma not_skipped force (w : world) q :
  force = true \/ files w !! q = None ->
  bool_decide (is_Some (files w !! q)) && negb force = false.
Proof.
  intros [-> | ->]; [apply andb_false_r|].
  by rewrite bool_decide_eq_false_2 by apply is_Some_None.
Qed.

Lemma fetch_problem_page cid idx w soup :
  page cf (trace w) cid idx = PageHtml soup ->
  forall d, parse_problem_html html_to_markdown soup = Some d ->
  fetch_problem html_to_markdown cf cid idx w
  = (Some d, World (files w) (trace w ++ [PageRequest cid idx])).
Proof.
  intros Hp d Hd. unfold fetch_problem.
  rewrite !bind_run. unfold history, emit. cbn [fst snd trace].
  by rewrite Hp, Hd.
Qed.

Lemma fetch_problem_failed cid idx w e :
  page cf (trace w) cid idx = PageFailed e ->
  fetch_problem html_to_markdown cf cid idx w
  = (None, World (files w)
                 ((trace w ++ [PageRequest cid idx])
                    ++ [Stderr (u8 "抓取失败: " ++ e)])).
Proof.
  intros Hp. unfold fetch_problem.
  rewrite !bind_run. unfold history, emit. cbn [fst snd trace].
  by rewrite Hp.
Qed.

Lemma run_translate_empty_page cid idx author force w soup :
  force = true \/ files w !! md_file (u8 "zh") cid (upper idx) = None ->
  (forall h, page cf h cid (upper idx) = PageHtml soup) ->
  parse_problem_html html_to_markdown soup = Some EmptyDict ->
  run cid idx author force w
  = (false, World (files w)
              (trace w ++ [processing cid (upper idx); PageRequest cid (upper idx); given_up])).
Proof.
  intros Hns Hp Hd. unfold run, run_translate.
  rewrite bind_run. unfold exists_file. cbn [fst snd].
  rewrite (not_skipped _ _ _ Hns).
  rewrite bind_run. cbn [emit fst snd]. rewrite bind_run.
  rewrite (fetch_problem_page _ _ _ soup (Hp _) _ Hd). cbn [fst snd].
  rewrite bind_run. cbn [emit fst snd files trace mret M_ret].
  unfold processing. by rewrite <- !app_assoc.
Qed.

Lemma run_translate_failed_page cid idx author force w e :
  force = true \/ files w !! md_file (u8 "zh") cid (upper idx) = None ->
  (forall h, page cf h cid (upper idx) = PageFailed e) ->
  run cid idx author force w
  = (false, World (files w)
              (trace w ++ [processing cid (upper idx); PageRequest cid (upper idx);
                           Stderr (u8 "抓取失败: " ++ e); given_up])).
Proof.
  intros Hns Hp. unfold run, run_translate.
  rewrite bind_run. unfold exists_file. cbn [fst snd].
  rewrite (not_skipped _ _ _ Hns).
  rewrite bind_run. cbn [emit fst snd]. rewrite bind_run.
  rewrite (fetch_problem_failed _ _ _ e (Hp _)). cbn [fst snd].
  rewrite bind_run. cbn [emit fst snd files trace mret M_ret].
  unfold processing. by rewrite <- !app_assoc.
Qed.

Lemma get_problem_meta_world cid idx w :
  snd (get_problem_meta cf cid idx w)
  = World (files w) (trace w ++ [MetaRequest cid]).
Proof.
  unfold get_problem_meta. rewrite !bind_run.
  unfold history, emit. cbn [fst snd trace files].
  destruct (standings cf (trace w) cid) as [|[] ps]; try done.
  by destruct (head _).
Qed.

Lemma run_translate_written cid idx author force w soup p :
  force = true \/ files w !! md_file (u8 "zh") cid (upper idx) = None ->
  (forall h, page cf h cid (upper idx) = PageHtml soup) ->
  parse_problem_html html_to_markdown soup = Some (Dict p) ->
  exists m,
    let t := fst (translate_problem net p (at_translation w cid (upper idx))) in
    let r := run cid idx author force w in
    fst r = true
    /\ files (snd r)
       = index_files cid (upper idx) (title p) (tr_title t)
           (from_option str_of_Z (u8 "?") (m ≫= rating))
           (from_option tags [] m)
           (tags_to_chinese lower (from_option tags [] m))
           (<[md_file (u8 "en") cid (upper idx) := build_en_md p cid (upper idx)]>
              (<[md_file (u8 "zh") cid (upper idx) :=
                   build_zh_md p t cid (upper idx) author]> (files w))).
Proof.
  intros Hns Hp Hd. unfold run, run_translate.
  rewrite bind_run. unfold exists_file. cbn [fst snd].
  rewrite (not_skipped _ _ _ Hns).
  rewrite bind_run. cbn [emit fst snd]. rewrite bind_run.
  rewrite (fetch_problem_page _ _ _ soup (Hp _) _ Hd). cbn [fst snd].
  rewrite bind_run.
  match goal with
  | |- context [get_problem_meta cf cid (upper idx) ?w0] =>
    pose proof (get_problem_meta_world cid (upper idx) w0) as Hm;
    destruct (get_problem_meta cf cid (upper idx) w0) as [m w3]
  end.
  cbn [fst snd files trace] in *. subst w3.
  rewrite bind_run. cbn [emit fst snd files trace]. rewrite bind_run.
  exists m.
  match goal with
  | |- context [translate_problem net p ?w0] =>
    replace w0 with (at_translation w cid (upper idx))
      by (unfold at_translation, processing; by rewrite <- !app_assoc)
  end.
  pose proof (keeps_translate_problem net p (at_translation w cid (upper idx)))
    as Ht.
  destruct (translate_problem net p (at_translation w cid (upper idx)))
    as [t w5]. cbn [fst snd] in *.
  rewrite !bind_run. unfold write_text. cbn [fst snd files trace].
  rewrite update_index_files. cbn [fst snd files trace emit mret M_ret].
  split; [done|]. by rewrite Ht.
Qed.
End RunFacts.

(** ** Index synchroniser: widening a table *)

Lemma starts_with_app p s : starts_with p (p ++ s) = true.
Proof.
  induction p as [|a p IH]; simpl; [done|].
  by rewrite N.eqb_refl, IH.
Qed.

Lemma contains_eq sub s :
  contains sub s
  = starts_with sub s || match s with [] => false | _ :: s' => contains sub s' end.
Proof. by destruct s. Qed.

Lemma contains_here p s : starts_with p s = true -> contains p s = true.
Proof. rewrite contains_eq. by intros ->. Qed.

Lemma contains_later sub a s : contains sub s = true -> contains sub (a ++ s) = true.
Proof.
  intros H. induction a as [|c a IH]; [done|].
  rewrite contains_eq. cbn [app]. rewrite IH. apply orb_true_r.
Qed.

Lemma contains_middle sub a b : contains sub (a ++ sub ++ b) = true.
Proof. apply contains_later, contains_here, starts_with_app. Qed.

Lemma take_while_line l r :
  forallb notnl l = true -> take_while notnl (l ++ NL :: r) = l.
Proof.
  induction l as [|c l IH]; simpl; [done|].
  intros [Hc Hl]%andb_prop. rewrite Hc. by rewrite IH.
Qed.

Lemma drop_while_line l r :
  forallb notnl l = true -> drop_while notnl (l ++ NL :: r) = NL :: r.
Proof.
  induction l as [|c l IH]; simpl; [done|].
  intros [Hc Hl]%andb_prop. rewrite Hc. by rewrite IH.
Qed.

Lemma take_while_end l : forallb notnl l = true -> take_while notnl l = l.
Proof.
  induction l as [|c l IH]; simpl; [done|].
  intros [Hc Hl]%andb_prop. rewrite Hc. by rewrite IH.
Qed.

Lemma line_nl_line l r :
  l <> [] -> forallb notnl l = true -> line_nl (l ++ NL :: r) = Some (l ++ [NL], r).
Proof.
  intros Hne Hl. unfold line_nl.
  rewrite take_while_line, drop_while_line by done.
  by destruct l.
Qed.

Lemma match_table_section hdr l1 l2 l3 post :
  l1 <> [] -> l2 <> [] -> l3 <> [] ->
  forallb notnl l1 = true -> forallb notnl l2 = true -> forallb notnl l3 = true ->
  (post = [] \/ exists post', post = NL :: post') ->
  match_table hdr (hdr ++ [NL; NL] ++ l1 ++ [NL] ++ l2 ++ [NL] ++ l3 ++ post)
  = Some (TableMatch (l1 ++ [NL]) (l2 ++ [NL]) l3 post).
Proof.
  intros N1 N2 N3 H1 H2 H3 Hpost. unfold match_table.
  rewrite (app_assoc hdr [NL; NL]). rewrite starts_with_app.
  rewrite (drop_app_length' (hdr ++ [NL; NL])) by (rewrite length_app; simpl; lia).
  cbn [app]. rewrite line_nl_line by done.
  rewrite line_nl_line by done.
  destruct Hpost as [-> | [post' ->]].
  - rewrite app_nil_r, take_while_end by done.
    destruct l3; [done|]. f_equal. f_equal.
    clear N3. revert H3. generalize (n :: l3). intros l Hl.
    induction l as [|c l IH]; simpl; [done|].
    apply andb_prop in Hl as [Hc Hl]. rewrite Hc. auto.
  - rewrite take_while_line, drop_while_line by done.
    by destruct l3.
Qed.

Lemma search_table_skip hdr pre s :
  (forall k, (k < length pre)%nat -> match_table hdr (drop k (pre ++ s)) = None) ->
  search_table hdr (pre ++ s)
  = match search_table hdr s with
    | Some (before, m) => Some (pre ++ before, m)
    | None => None
    end.
Proof.
  induction pre as [|c pre IH]; intros H.
  - cbn [app]. by destruct (search_table hdr s) as [[? ?]|].
  - cbn [app search_table].
    pose proof (H 0%nat ltac:(simpl; lia)) as H0.
    cbn [drop app] in H0. rewrite H0.
    rewrite IH; [by destruct (search_table hdr s) as [[? ?]|]|].
    intros k Hk. apply (H (S k)). simpl. lia.
Qed.

Lemma search_table_here hdr s m :
  match_table hdr s = Some m -> search_table hdr s = Some ([], m).
Proof. intros H. destruct s; simpl; by rewrite H. Qed.

(** Stripping a line the synchroniser wrote. *)
Lemma rstrip_by_keep p s c : p c = false -> rstrip_by p (s ++ [c]) = s ++ [c].
Proof.
  intros H. unfold rstrip_by. rewrite rev_app_distr. simpl. rewrite H.
  simpl. by rewrite rev_involutive.
Qed.

Lemma rstrip_by_drop p s c : p c = true -> rstrip_by p (s ++ [c]) = rstrip_by p s.
Proof.
  intros H. unfold rstrip_by. rewrite rev_app_distr. simpl. by rewrite H.
Qed.

Lemma table_line_snoc cells c :
  table_line (cells ++ [c]) = table_line cells ++ c ++ [BAR].
Proof.
  unfold table_line. rewrite map_app, concat_app. cbn [map concat].
  rewrite app_nil_r. change (u8 "|") with [BAR]. by rewrite <- ?app_assoc.
Qed.

Lemma table_line_body cells :
  good_cells cells = true ->
  exists body ch, table_line cells = body ++ [ch] ++ [BAR]
                  /\ isspace ch = false /\ (BAR =? ch) = false.
Proof.
  unfold good_cells. intros [_ H]%andb_prop.
  destruct (last cells) as [lc|] eqn:Hl; cbn [from_option] in H; [|done].
  apply last_Some in Hl as [init ->].
  unfold ends_solid in H.
  destruct (last lc) as [ch|] eqn:Hc; [|done].
  apply last_Some in Hc as [lc' ->].
  apply andb_prop in H as [Hs Hb].
  exists (u8 "|" ++ concat (map (fun c => c ++ u8 "|") init) ++ lc'), ch.
  rewrite table_line_snoc. unfold table_line.
  repeat split.
  - by rewrite <- !app_assoc.
  - by destruct (isspace ch).
  - rewrite N.eqb_sym. by destruct (ch =? BAR).
Qed.

Lemma cells_clean cells :
  forallb (forallb notnl) cells = true ->
  forallb notnl (concat (map (fun c => c ++ u8 "|") cells)) = true.
Proof.
  induction cells as [|c cells IH]; [done|].
  cbn [forallb map concat]. intros [Hc H]%andb_prop.
  rewrite !forallb_app, Hc, IH by done. done.
Qed.

Lemma table_line_clean cells :
  good_cells cells = true ->
  table_line cells <> [] /\ forallb notnl (table_line cells) = true.
Proof.
  unfold good_cells. intros [H _]%andb_prop. split; [done|].
  unfold table_line. rewrite forallb_app, cells_clean by done. done.
Qed.

Lemma widen_line_nl cells c :
  good_cells cells = true ->
  rstrip_bar (rstrip (table_line cells ++ [NL])) ++ u8 "|" ++ c ++ u8 "|"
  = table_line (cells ++ [c]).
Proof.
  intros (body & ch & E & Hs & Hb)%table_line_body.
  rewrite table_line_snoc, E.
  unfold rstrip, rstrip_bar.
  rewrite rstrip_by_drop by done.
  rewrite (app_assoc body), (rstrip_by_keep _ _ BAR) by done.
  rewrite rstrip_by_drop by apply N.eqb_refl.
  rewrite rstrip_by_keep by done.
  change (u8 "|") with [BAR]. by rewrite <- ?app_assoc.
Qed.

Lemma widen_line cells c :
  good_cells cells = true ->
  rstrip_bar (rstrip (table_line cells)) ++ u8 "|" ++ c ++ u8 "|"
  = table_line (cells ++ [c]).
Proof.
  intros (body & ch & E & Hs & Hb)%table_line_body.
  rewrite table_line_snoc, E.
  unfold rstrip, rstrip_bar.
  rewrite (app_assoc body), (rstrip_by_keep _ _ BAR) by done.
  rewrite rstrip_by_drop by apply N.eqb_refl.
  rewrite rstrip_by_keep by done.
  change (u8 "|") with [BAR]. by rewrite <- ?app_assoc.
Qed.

Lemma section_text_has_header hdr pre hc sc rc post :
  contains hdr (section_text hdr pre hc sc rc post) = true.
Proof. unfold section_text. apply contains_middle. Qed.

(** The heart of C4: on a section in the three-line shape, the patch is
    one more cell at the end of each of the three lines. *)
Lemma patch_index_widens hdr cell entry pre hc sc rc post content :
  section_at hdr pre hc sc rc post content ->
  patch_index hdr cell entry content
  = section_text hdr pre (hc ++ [cell]) (sc ++ [u8 ":-:"]) (rc ++ [entry])
                 (NL :: post).
Proof.
  intros (-> & Hh & Hs & Hr & Hpost & Hleft).
  unfold patch_index. rewrite section_text_has_header. cbn [negb].
  unfold widen_table.
  destruct (table_line_clean _ Hh) as [Nh Ch].
  destruct (table_line_clean _ Hs) as [Ns Cs].
  destruct (table_line_clean _ Hr) as [Nr Cr].
  unfold section_text in *.
  rewrite search_table_skip by done.
  rewrite (search_table_here _ _ _
             (match_table_section hdr _ _ _ post Nh Ns Nr Ch Cs Cr Hpost)).
  cbn [g_hdr g_sep g_row m_rest].
  rewrite app_nil_r.
  rewrite <- (widen_line_nl hc cell), <- (widen_line_nl sc (u8 ":-:")),
          <- (widen_line rc entry) by done.
  change (u8 "|:-:|") with (u8 "|" ++ u8 ":-:" ++ u8 "|").
  rewrite <- ?app_assoc. done.
Qed.

(** ** Document renderer *)

Lemma zh_example_lines_input n i exs k ex :
  (1 < n)%nat -> exs !! k = Some ex ->
  zh_example_lines n i exs !! (13 * k + 1)%nat
  = Some (u8 "### 输入" ++ u8 " " ++ str_of_N (i + N.of_nat k)).
Proof.
  intros Hn. revert i k. induction exs as [|e exs IH]; intros i k Hk; [done|].
  destruct k as [|k].
  - cbn [zh_example_lines]. apply Nat.ltb_lt in Hn. rewrite Hn.
    change (N.of_nat 0) with 0. rewrite N.add_0_r. reflexivity.
  - cbn [zh_example_lines]. cbn [lookup list_lookup] in Hk.
    replace (13 * S k + 1)%nat with (13 + (13 * k + 1))%nat by lia.
    rewrite lookup_app_r by (simpl; lia). simpl length.
    replace (13 + (13 * k + 1) - 13)%nat with (13 * k + 1)%nat by lia.
    rewrite (IH (N.succ i) k Hk). do 4 f_equal. lia.
Qed.

Lemma en_example_lines_headings i exs k ex :
  exs !! k = Some ex ->
  en_example_lines i exs !! (13 * k + 1)%nat = Some (u8 "### Input")
  /\ en_example_lines i exs !! (13 * k + 7)%nat = Some (u8 "### Output").
Proof.
  revert i k. induction exs as [|e exs IH]; intros i k Hk; [done|].
  destruct k as [|k].
  - by cbn.
  - cbn [en_example_lines]. cbn [lookup list_lookup] in Hk.
    replace (13 * S k + 1)%nat with (13 + (13 * k + 1))%nat by lia.
    replace (13 * S k + 7)%nat with (13 + (13 * k + 7))%nat by lia.
    rewrite !lookup_app_r by (simpl; lia). simpl length.
    replace (13 + (13 * k + 1) - 13)%nat with (13 * k + 1)%nat by lia.
    replace (13 + (13 * k + 7) - 13)%nat with (13 * k + 7)%nat by lia.
    apply (IH (N.succ i) k Hk).
Qed.

(** What the two loops over the examples add to the line lists: the
    lines of the examples section are part of both lists as the loops
    build them.  With exactly one example no heading carries a number,
    in either list.  With two or more, the input heading of the k-th
    example of the translated list is "### 输入 k", counting from 1,
    and the headings of the original-language list are "### Input" and
    "### Output" for every example. *)
Lemma example_headings_numbering :
  (forall t idx author, tr_examples t <> [] ->
     exists front back,
       zh_lines t idx author
       = front ++ zh_example_lines (length (tr_examples t)) 1 (tr_examples t)
               ++ back)
  /\ (forall p idx, examples p <> [] ->
     exists front back,
       en_lines p idx = front ++ en_example_lines 1 (examples p) ++ back)
  /\ (forall ex,
       zh_example_lines 1 1 [ex] = example_block (u8 "### 输入") (u8 "### 输出") ex
       /\ en_example_lines 1 [ex] = example_block (u8 "### Input") (u8 "### Output") ex)
  /\ (forall exs k ex, (2 <= length exs)%nat -> exs !! k = Some ex ->
       zh_example_lines (length exs) 1 exs !! (13 * k + 1)%nat
       = Some (u8 "### 输入" ++ u8 " " ++ str_of_N (N.of_nat k + 1))
       /\ en_example_lines 1 exs !! (13 * k + 1)%nat = Some (u8 "### Input")
       /\ en_example_lines 1 exs !! (13 * k + 7)%nat = Some (u8 "### Output")).
Proof.
  split; [|split; [|split]].
  - intros t idx author Hne. unfold zh_lines.
    destruct (tr_examples t) as [|e exs] eqn:E; [done|].
    match goal with
    | |- ex (fun _ => ex (fun _ => ?l ++ ?a ++ ?b ++ (?h :: ?bs) ++ ?n = _)) =>
      exists (l ++ a ++ b ++ [h]), n
    end.
    by rewrite <- !app_assoc.
  - intros p idx Hne. unfold en_lines.
    destruct (examples p) as [|e exs] eqn:E; [done|].
    match goal with
    | |- ex (fun _ => ex (fun _ => ?l ++ ?a ++ ?b ++ (?h :: ?bs) ++ ?n = _)) =>
      exists (l ++ a ++ b ++ [h]), n
    end.
    by rewrite <- !app_assoc.
  - intros ex. split; reflexivity.
  - intros exs k ex Hlen Hk. split; [|by apply en_example_lines_headings with (ex := ex)].
    rewrite zh_example_lines_input with (ex := ex) by (done || lia).
    do 4 f_equal. lia.
Qed.

(** C3: the two renderers at a record with two examples, where the
    claim asks for input and output headings numbered from 1 in both
    documents.  The document of [build_en_md] has the headings
    "### Input", "### Output", "### Input", "### Output", none of them
    with a number (the counter of its loop is never used); the document
    of [build_zh_md] has "### 输入 1", "### 输出", "### 输入 2",
    "### 输出": the same loop numbers the input heading and leaves the
    output heading without a number. *)
Lemma example_headings_of_two_samples :
  length (examples two_samples) = 2%nat
  /\ headings (build_en_md two_samples 1 (u8 "A"))
     = [u8 "### Input"; u8 "### Output"; u8 "### Input"; u8 "### Output"]
  /\ existsb (contains (u8 "1")) (headings (build_en_md two_samples 1 (u8 "A")))
     = false
  /\ headings (build_zh_md two_samples two_samples_zh 1 (u8 "A") (u8 "me"))
     = [u8 "### 输入 1"; u8 "### 输出"; u8 "### 输入 2"; u8 "### 输出"].
Proof. repeat split; vm_compute; reflexivity. Qed.

(** ** Problem extractor *)

Example strip_index_example :
  strip_index (u8 "A. Example Title") = u8 "Example Title".
Proof. reflexivity. Qed.

(** C7, as amended: [full_title] is the text of the title tag.  When it
    is an uppercase ASCII letter, a dot and a rest, the title is the
    rest without its leading whitespace; when it does not start with an
    uppercase ASCII letter and a dot, the title is the text itself. *)
Theorem title_extraction h2m soup ps header after :
  find DIV (u8 "problem-statement") soup = Some ps ->
  find_with_next (is_tag DIV (u8 "header")) ps = Some (header, after) ->
  let text := from_option get_text_stripped [] (find DIV (u8 "title") header) in
  exists p,
    parse_problem_html h2m soup = Some (Dict p)
    /\ full_title p = text
    /\ (forall c rest, text = c :: 46 :: rest -> is_upper c = true ->
        title p = lstrip rest)
    /\ ((forall c rest, text = c :: 46 :: rest -> is_upper c = false) ->
        title p = text).
Proof.
  intros Hps Hh text. unfold parse_problem_html. rewrite Hps, Hh.
  fold text.
  destruct (extract_section h2m (u8 "input-specification") ps) as [i ps1].
  destruct (extract_section h2m (u8 "output-specification") ps1) as [o ps2].
  destruct (extract_section h2m (u8 "note") ps2) as [n ps3].
  eexists. split; [reflexivity|]. cbn [full_title title].
  split; [done|]. split.
  - intros c rest E Hc. rewrite E. cbn [truthy strip_index].
    unfold is_upper in Hc. by rewrite Hc.
  - intros H. destruct text as [|c [|d rest]] eqn:E; [done..|].
    cbn [truthy strip_index].
    destruct (N.eq_dec d 46) as [->|Hd].
    + unfold is_upper in H. by rewrite (H c rest eq_refl).
    + destruct d as [|d]; [done|].
      repeat (destruct d as [d|d|]; try done).
Qed.

(** C7 as stated fails: "A.Title" has no letter-dot-blank prefix and is
    stripped all the same, and "a. Title" has one and is kept whole. *)
Lemma title_prefix_counterexample :
  (exists p,
      parse_problem_html no_markdown (page_titled (u8 "A.Title")) = Some (Dict p)
      /\ full_title p = u8 "A.Title"
      /\ starts_with (u8 "A. ") (full_title p) = false
      /\ title p = u8 "Title"
      /\ title p <> full_title p)
  /\ (exists p,
      parse_problem_html no_markdown (page_titled (u8 "a. Title")) = Some (Dict p)
      /\ full_title p = u8 "a. Title"
      /\ title p = u8 "a. Title"
      /\ title p <> u8 "Title").
Proof.
  split.
  - exists (Problem (u8 "Title") (u8 "A.Title") [] [] [] [] []).
    repeat split; try (vm_compute; reflexivity). by vm_compute.
  - exists (Problem (u8 "a. Title") (u8 "a. Title") [] [] [] [] []).
    repeat split; try (vm_compute; reflexivity). by vm_compute.
Qed.

(** C8, as amended: without a sample-test tag in the container there
    are no examples; otherwise the input and output blocks of the first
    sample-test tag are paired by position, as many pairs as the
    shorter of the two sequences has blocks.  [parse_examples] is a
    total function: it does not fail. *)
Theorem parse_examples_pairs sample_tests :
  (find DIV (u8 "sample-test") sample_tests = None ->
   parse_examples sample_tests = [])
  /\ forall sample_test,
      find DIV (u8 "sample-test") sample_tests = Some sample_test ->
      let inputs := find_all DIV (u8 "input") sample_test in
      let outputs := find_all DIV (u8 "output") sample_test in
      length (parse_examples sample_tests)
      = Nat.min (length inputs) (length outputs)
      /\ forall i inp out,
          inputs !! i = Some inp -> outputs !! i = Some out ->
          parse_examples sample_tests !! i
          = Some (Sample (pre_text inp) (pre_text out)).
Proof.
  unfold parse_examples. split; [by intros ->|].
  intros st ->. cbn zeta. split.
  - by rewrite length_map, length_zip_with.
  - intros i inp out Hi Ho.
    rewrite list_lookup_fmap, lookup_zip_with, Hi. cbn. by rewrite Ho.
Qed.

(** C8 as stated fails: a container with one input block and one
    output block outside any sample-test tag yields no pair. *)
Lemma unwrapped_blocks_counterexample :
  length (find_all DIV (u8 "input") bare_sample_tests) = 1%nat
  /\ length (find_all DIV (u8 "output") bare_sample_tests) = 1%nat
  /\ parse_examples bare_sample_tests = []
  /\ length (parse_examples bare_sample_tests)
     <> Nat.min (length (find_all DIV (u8 "input") bare_sample_tests))
                (length (find_all DIV (u8 "output") bare_sample_tests)).
Proof. repeat split; try (vm_compute; reflexivity). by vm_compute. Qed.
Lemma no_match_before_spec hdr content n :
  no_match_before hdr content n = true ->
  forall k, (k < n)%nat -> match_table hdr (drop k content) = None.
Proof.
  unfold no_match_before. rewrite forallb_forall. intros H k Hk.
  specialize (H k). rewrite in_seq in H.
  destruct (match_table hdr (drop k content)); [|done].
  discriminate H. lia.
Qed.




Lemma update_index_skips cid idx en_title zh_title rating tags_en tags_zh w :
  (files w !! zh_index = None
   \/ exists c, text_of (files w) zh_index = Some c
                /\ contains (zh_fragment cid idx) c = true) ->
  update_index cid idx en_title zh_title rating tags_en tags_zh w = (tt, w).
Proof.
  intros H. rewrite update_index_files. unfold index_files.
  destruct H as [H | (c & H & Hc)].
  - unfold text_of. rewrite H. cbn [fmap option_fmap option_map].
    by rewrite world_eta.
  - rewrite H, Hc. by rewrite world_eta.
Qed.

(** C10: while the translated index is absent, or the text read from it
    already holds the link of the problem, [update_index] returns with
    the original-language index file as it was, even when that file
    exists and lacks the entry; the whole world is as it was. *)
Theorem update_index_leaves_en_index cid idx en_title zh_title rating tags_en tags_zh w :
  (files w !! zh_index = None
   \/ exists c, text_of (files w) zh_index = Some c
                /\ contains (zh_fragment cid idx) c = true) ->
  let w' := snd (update_index cid idx en_title zh_title rating tags_en tags_zh w) in
  files w' !! en_index = files w !! en_index /\ w' = w.
Proof.
  intros H. simpl. by rewrite update_index_skips.
Qed.

(** C1: an index document whose text, as [update_index] reads it,
    already holds the link fragment of the problem is not changed by
    [update_index]: with the fragment in the translated index nothing at
    all is written, and with its own fragment in the original-language
    index that file stays as it is stored.  Hence a second run for the
    same problem without force-overwrite changes no file: a run that
    reported failure wrote nothing, and after a run that reported
    success every further run, whatever the site and the translation
    services answer, is skipped and leaves the markdown files and the
    index files as they are. *)
Theorem synchronisation_idempotent upper lower h2m cf net :
  (forall cid idx en_title zh_title rating tags_en tags_zh w c,
      text_of (files w) zh_index = Some c ->
      contains (zh_fragment cid idx) c = true ->
      update_index cid idx en_title zh_title rating tags_en tags_zh w = (tt, w))
  /\ (forall cid idx en_title zh_title rating tags_en tags_zh w c,
      text_of (files w) en_index = Some c ->
      contains (en_fragment cid idx) c = true ->
      let w' := snd (update_index cid idx en_title zh_title rating tags_en
                                  tags_zh w) in
      files w' !! en_index = files w !! en_index
      /\ text_of (files w') en_index = Some c)
  /\ (forall cid idx author force w,
      let r1 := run_translate upper lower h2m cf net cid idx author force w in
      (fst r1 = false -> files (snd r1) = files w)
      /\ (fst r1 = true ->
          forall lower' h2m' cf' net' author',
            let r2 := run_translate upper lower' h2m' cf' net' cid idx author'
                                    false (snd r1) in
            fst r2 = true /\ files (snd r2) = files (snd r1))).
Proof.
  split; [|split].
  - intros. apply update_index_skips. eauto.
  - intros cid idx en_title zh_title rating tags_en tags_zh w c He Hc w'.
    assert (E : files w' !! en_index = files w !! en_index).
    { subst w'. rewrite update_index_files. cbn [snd files]. unfold index_files.
      destruct (text_of (files w) zh_index) as [zc|]; [|done].
      destruct (contains (zh_fragment cid idx) zc); [done|].
      rewrite He, Hc. by rewrite lookup_insert_ne by apply zh_en_index. }
    split; [exact E|]. unfold text_of in *. by rewrite E.
  - intros cid idx author force w r1.
    destruct (run_translate_outcome upper lower h2m cf net cid idx author force w)
      as [[Hb Hf] | [Hb Hf]]; fold r1 in Hb, Hf.
    + split; [by rewrite Hb|]. intros _ lower' h2m' cf' net' author' r2.
      destruct Hf as [c Hc].
      destruct (run_translate_skipped upper lower' h2m' cf' net' cid idx author'
                  (snd r1) c Hc) as [line E].
      subst r2. by rewrite E.
    + split; [done|]. by rewrite Hb.
Qed.

Lemma synchronisation_idempotent_witness :
  update_index 12 (u8 "A") (u8 "Theatre Square") (u8 "剧院广场") (u8 "800")
               [u8 "math"] (u8 "数学") demo_world = (tt, demo_world)
  /\ let r1 := run_translate ascii_upper ascii_lower no_markdown demo_site
                             net_down 12 (u8 "a") (u8 "me") false demo_world in
     fst r1 = true
     /\ files (snd (run_translate ascii_upper ascii_lower no_markdown demo_site
                                  net_echo 12 (u8 "a") (u8 "you") false (snd r1)))
        = files (snd r1).
Proof.
  destruct (synchronisation_idempotent ascii_upper ascii_lower no_markdown
              demo_site net_down) as (H1 & _ & H3).
  split.
  - apply (H1 12%Z (u8 "A") _ _ _ _ _ demo_world demo_zh_index);
      vm_compute; reflexivity.
  - intros r1.
    assert (Hr : fst r1 = true) by (vm_compute; reflexivity).
    split; [exact Hr|].
    apply (H3 12%Z (u8 "a") (u8 "me") false demo_world), Hr.
Defined.

(** C6: a page without the problem-statement block is extracted to the
    empty dictionary, and [run_translate] handles it as it handles a
    fetch that failed: it prints the same line, returns [False] and
    writes no file (the two traces differ by the line [fetch_problem]
    itself prints on a failure). *)
Theorem missing_statement_is_fetch_failure upper lower h2m cf net cid idx
        author force w soup :
  find DIV (u8 "problem-statement") soup = None ->
  force = true \/ files w !! md_file (u8 "zh") cid (upper idx) = None ->
  (forall h, page cf h cid (upper idx) = PageHtml soup) ->
  parse_problem_html h2m soup = Some EmptyDict
  /\ run_translate upper lower h2m cf net cid idx author force w
     = (false,
        World (files w)
              (trace w ++ [processing cid (upper idx);
                           PageRequest cid (upper idx); given_up]))
  /\ forall cf' e,
      (forall h, page cf' h cid (upper idx) = PageFailed e) ->
      run_translate upper lower h2m cf' net cid idx author force w
      = (false,
         World (files w)
               (trace w ++ [processing cid (upper idx);
                            PageRequest cid (upper idx);
                            Stderr (u8 "抓取失败: " ++ e); given_up])).
Proof.
  intros Hno Hns Hp.
  assert (Hd : parse_problem_html h2m soup = Some EmptyDict)
    by (unfold parse_problem_html; by rewrite Hno).
  split; [done|]. split.
  - by apply run_translate_empty_page with (soup := soup).
  - intros cf' e Hp'. by apply run_translate_failed_page.
Qed.

Lemma missing_statement_is_fetch_failure_witness :
  parse_problem_html no_markdown (Elem (u8 "[document]") [] [Text (u8 "moved")])
  = Some EmptyDict
  /\ run_translate ascii_upper ascii_lower no_markdown blank_site net_echo
                   12 (u8 "a") (u8 "me") false demo_world
     = (false,
        World (files demo_world)
              [processing 12 (u8 "A"); PageRequest 12 (u8 "A"); given_up]).
Proof.
  destruct (missing_statement_is_fetch_failure ascii_upper ascii_lower
              no_markdown blank_site net_echo 12 (u8 "a") (u8 "me") false
              demo_world (Elem (u8 "[document]") [] [Text (u8 "moved")]))
    as (H1 & H2 & _).
  - vm_compute. reflexivity.
  - right. vm_compute. reflexivity.
  - intros h. reflexivity.
  - split; [exact H1|exact H2].
Defined.

Lemma update_index_leaves_en_index_witness :
  contains (en_fragment 12 (u8 "A")) (u8 "# Problems") = false
  /\ files (snd (update_index 12 (u8 "A") (u8 "Theatre Square") (u8 "剧院广场")
                              (u8 "800") [u8 "math"] (u8 "数学")
                              (World {[ en_index := u8 "# Problems" ]} [])))
       !! en_index
     = Some (u8 "# Problems").
Proof.
  split; [vm_compute; reflexivity|].
  destruct (update_index_leaves_en_index 12 (u8 "A") (u8 "Theatre Square")
              (u8 "剧院广场") (u8 "800") [u8 "math"] (u8 "数学")
              (World {[ en_index := u8 "# Problems" ]} [])) as [H _].
  - left. vm_compute. reflexivity.
  - rewrite H. vm_compute. reflexivity.
Defined.

Lemma example_headings_numbering_witness :
  zh_example_lines 2 1 (examples two_samples) !! 14%nat = Some (u8 "### 输入 2")
  /\ en_example_lines 1 (examples two_samples) !! 14%nat = Some (u8 "### Input")
  /\ en_example_lines 1 (examples two_samples) !! 20%nat = Some (u8 "### Output").
Proof.
  destruct example_headings_numbering as (_ & _ & _ & H).
  apply (H (examples two_samples) 1%nat (Sample (u8 "z") (u8 "w"))).
  - vm_compute. lia.
  - reflexivity.
Defined.

Lemma title_extraction_witness :
  exists p,
    parse_problem_html no_markdown (page_titled (u8 "A. Example Title"))
    = Some (Dict p)
    /\ full_title p = u8 "A. Example Title"
    /\ title p = u8 "Example Title".
Proof.
  edestruct (title_extraction no_markdown (page_titled (u8 "A. Example Title")))
    as (p & Hp & Hf & Ht & _).
  - vm_compute. reflexivity.
  - vm_compute. reflexivity.
  - exists p. split; [exact Hp|]. split.
    + rewrite Hf. vm_compute. reflexivity.
    + rewrite (Ht 65 (u8 " Example Title")); vm_compute; reflexivity.
Defined.

Lemma parse_examples_pairs_witness :
  length (parse_examples wrapped_sample_tests) = 1%nat
  /\ parse_examples wrapped_sample_tests !! 0%nat
     = Some (Sample (u8 "4 2") (u8 "8")).
Proof.
  destruct (parse_examples_pairs wrapped_sample_tests) as [_ H].
  edestruct H as [Hlen Hpair].
  - vm_compute. reflexivity.
  - split.
    + rewrite Hlen. vm_compute. reflexivity.
    + erewrite Hpair; [| vm_compute; reflexivity | vm_compute; reflexivity].
      vm_compute. reflexivity.
Defined.
Lemma starts_with_spec p s : starts_with p s = true -> exists b, s = p ++ b.
Proof.
  revert s. induction p as [|a p IH]; intros s H; [by exists s|].
  destruct s as [|c s]; [done|]. cbn [starts_with] in H.
  apply andb_prop in H as [Hac Hp]. apply N.eqb_eq in Hac as ->.
  destruct (IH s Hp) as [b ->]. by exists b.
Qed.

Lemma contains_spec sub s :
  contains sub s = true <-> exists a b, s = a ++ sub ++ b.
Proof.
  split.
  - induction s as [|c s IH]; rewrite contains_eq.
    + rewrite orb_false_r. intros [b ->]%starts_with_spec. by exists [], b.
    + intros [H|H]%orb_prop.
      * apply starts_with_spec in H as [b ->]. by exists [], b.
      * destruct (IH H) as (a & b & ->). by exists (c :: a), b.
  - intros (a & b & ->). apply contains_middle.
Qed.

Lemma contains_trans a b c :
  contains a b = true -> contains b c = true -> contains a c = true.
Proof.
  rewrite !contains_spec. intros (x & y & ->) (u & v & ->).
  exists (u ++ x), (y ++ v). by rewrite <- !app_assoc.
Qed.

Lemma contains_tail sub c s : contains sub (c :: s) = false -> contains sub s = false.
Proof. rewrite (contains_eq sub (c :: s)). by intros [_ H]%orb_false_elim. Qed.

Lemma contains_head sub s : contains sub s = false -> starts_with sub s = false.
Proof. rewrite contains_eq. by intros [H _]%orb_false_elim. Qed.

Lemma contains_front sub a b : contains sub a = true -> contains sub (a ++ b) = true.
Proof.
  rewrite !contains_spec. intros (x & y & ->).
  exists x, (y ++ b). by rewrite <- !app_assoc.
Qed.

(** Finds the part in a concatenation. *)
Ltac has_part :=
  first [ apply contains_here, starts_with_app
        | apply contains_later; has_part
        | apply contains_front; has_part ].

Lemma zh_entry_has_fragment cid idx en_title zh_title tags_zh :
  contains (zh_fragment cid idx) (zh_entry_of cid idx en_title zh_title tags_zh) = true.
Proof. unfold zh_entry_of. has_part. Qed.

Lemma en_entry_has_fragment cid idx en_title tags_en :
  contains (en_fragment cid idx) (en_entry_of cid idx en_title tags_en) = true.
Proof. unfold en_entry_of. has_part. Qed.

Lemma search_table_none hdr s :
  contains (hdr ++ [NL; NL]) s = false -> search_table hdr s = None.
Proof.
  induction s as [|c s IH]; intros H.
  - cbn [search_table]. unfold match_table. by rewrite (contains_head _ _ H).
  - cbn [search_table]. unfold match_table. rewrite (contains_head _ _ H).
    by rewrite (IH (contains_tail _ _ _ H)).
Qed.

Lemma search_table_split hdr s before m :
  search_table hdr s = Some (before, m) ->
  exists tail, s = before ++ tail /\ match_table hdr tail = Some m.
Proof.
  revert before. induction s as [|c s IH]; intros before; cbn [search_table].
  - destruct (match_table hdr []) eqn:E; [|done].
    intros [= <- <-]. by exists [].
  - destruct (match_table hdr (c :: s)) eqn:E.
    + intros [= <- <-]. by exists (c :: s).
    + destruct (search_table hdr s) as [[b m']|]; [|done].
      intros [= <- <-]. destruct (IH b eq_refl) as (tail & -> & Hm).
      by exists tail.
Qed.

(** The patch either leaves the content alone or puts the entry in. *)
Lemma patch_index_outcome hdr cell entry content :
  patch_index hdr cell entry content = content
  \/ contains entry (patch_index hdr cell entry content) = true.
Proof.
  unfold patch_index.
  destruct (contains hdr content); cbn [negb].
  - unfold widen_table.
    destruct (search_table hdr content) as [[before m]|]; [right|by left].
    has_part.
  - right. unfold new_block. has_part.
Qed.

(** ** Index synchroniser: running it again *)

Lemma contains_universal_newlines sub s :
  no_cr sub = true -> contains sub s = true ->
  contains sub (universal_newlines s) = true.
Proof.
  intros Hs (a & b & ->)%contains_spec.
  destruct (universal_newlines_end a (sub ++ b)) as [a' ->].
  rewrite universal_newlines_clean by done. apply contains_middle.
Qed.

Lemma no_cr_app a b : no_cr (a ++ b) = no_cr a && no_cr b.
Proof. apply forallb_app. Qed.

Lemma digits_no_cr d : no_cr (digits d) = true.
Proof. unfold no_cr. induction d; cbn [digits forallb]; by rewrite ?IHd. Qed.

Lemma str_of_Z_no_cr z : no_cr (str_of_Z z) = true.
Proof. unfold str_of_Z, str_of_N. destruct z; apply digits_no_cr. Qed.

Lemma zh_fragment_no_cr cid idx :
  no_cr idx = true -> no_cr (zh_fragment cid idx) = true.
Proof.
  intros H. unfold zh_fragment. by rewrite !no_cr_app, str_of_Z_no_cr, H.
Qed.

Lemma en_fragment_no_cr cid idx :
  no_cr idx = true -> no_cr (en_fragment cid idx) = true.
Proof.
  intros H. unfold en_fragment. by rewrite !no_cr_app, str_of_Z_no_cr, H.
Qed.

Lemma text_of_insert_eq fs p v :
  text_of (<[p := v]> fs) p = Some (universal_newlines v).
Proof. unfold text_of. by rewrite lookup_insert_eq. Qed.

Lemma text_of_insert_ne fs p q v :
  p <> q -> text_of (<[p := v]> fs) q = text_of fs q.
Proof. intros H. unfold text_of. by rewrite lookup_insert_ne. Qed.

(** A text that was read has line feeds only. *)
Lemma text_of_clean fs p c : text_of fs p = Some c -> universal_newlines c = c.
Proof.
  unfold text_of. destruct (fs !! p) as [s|]; [|done].
  intros [= <-]. apply universal_newlines_twice.
Qed.

Lemma index_files_idempotent cid idx en_title zh_title rating tags_en tags_zh fs :
  no_cr idx = true ->
  index_files cid idx en_title zh_title rating tags_en tags_zh
    (index_files cid idx en_title zh_title rating tags_en tags_zh fs)
  = index_files cid idx en_title zh_title rating tags_en tags_zh fs.
Proof.
  intros Hidx.
  set (R := index_files cid idx en_title zh_title rating tags_en tags_zh fs).
  set (hdr := contest_header_of cid). set (cell := header_cell idx rating).
  set (ze := zh_entry_of cid idx en_title zh_title tags_zh).
  set (ee := en_entry_of cid idx en_title tags_en).
  assert (Hzh : forall c,
             contains (zh_fragment cid idx)
                      (universal_newlines (patch_index hdr cell ze c)) = false ->
             patch_index hdr cell ze c = c).
  { intros c Hn. destruct (patch_index_outcome hdr cell ze c) as [E|E]; [done|].
    rewrite (contains_universal_newlines _ _ (zh_fragment_no_cr cid idx Hidx)
               (contains_trans _ _ _ (zh_entry_has_fragment _ _ _ _ _) E)) in Hn.
    done. }
  assert (Hen : forall c,
             contains (en_fragment cid idx)
                      (universal_newlines (patch_index hdr cell ee c)) = false ->
             patch_index hdr cell ee c = c).
  { intros c Hn. destruct (patch_index_outcome hdr cell ee c) as [E|E]; [done|].
    rewrite (contains_universal_newlines _ _ (en_fragment_no_cr cid idx Hidx)
               (contains_trans _ _ _ (en_entry_has_fragment _ _ _ _) E)) in Hn.
    done. }
  assert (Hne : en_index <> zh_index) by (apply not_eq_sym, zh_en_index).
  destruct (text_of fs zh_index) as [c|] eqn:Hz.
  2:{ assert (HR : R = fs) by (unfold R, index_files; by rewrite Hz).
      rewrite HR. unfold index_files. by rewrite Hz. }
  pose proof (text_of_clean _ _ _ Hz) as Hcc.
  destruct (contains (zh_fragment cid idx) c) eqn:Hc.
  { assert (HR : R = fs) by (unfold R, index_files; by rewrite Hz, Hc).
    rewrite HR. unfold index_files. by rewrite Hz, Hc. }
  set (c' := patch_index hdr cell ze c).
  destruct (text_of fs en_index) as [e|] eqn:He.
  2:{ assert (HR : R = <[zh_index := c']> fs)
        by (unfold R, index_files; by rewrite Hz, Hc, He).
      rewrite HR. unfold index_files. fold hdr cell ze ee.
      rewrite text_of_insert_eq.
      destruct (contains (zh_fragment cid idx) (universal_newlines c')) eqn:Hc';
        [done|].
      rewrite text_of_insert_ne, He by apply zh_en_index.
      assert (E : c' = c) by apply (Hzh c Hc').
      rewrite E, Hcc. fold c'. rewrite E.
      by rewrite insert_insert_eq. }
  pose proof (text_of_clean _ _ _ He) as Hee.
  destruct (contains (en_fragment cid idx) e) eqn:Hce.
  { assert (HR : R = <[zh_index := c']> fs)
      by (unfold R, index_files; by rewrite Hz, Hc, He, Hce).
    rewrite HR. unfold index_files. fold hdr cell ze ee.
    rewrite text_of_insert_eq.
    destruct (contains (zh_fragment cid idx) (universal_newlines c')) eqn:Hc';
      [done|].
    rewrite text_of_insert_ne, He, Hce by apply zh_en_index.
    assert (E : c' = c) by apply (Hzh c Hc').
    rewrite E, Hcc. fold c'. rewrite E.
    by rewrite insert_insert_eq. }
  set (e' := patch_index hdr cell ee e).
  assert (HR : R = <[en_index := e']> (<[zh_index := c']> fs))
    by (unfold R, index_files; by rewrite Hz, Hc, He, Hce).
  rewrite HR. unfold index_files. fold hdr cell ze ee.
  rewrite text_of_insert_ne, text_of_insert_eq by done.
  destruct (contains (zh_fragment cid idx) (universal_newlines c')) eqn:Hc';
    [done|].
  rewrite text_of_insert_eq.
  assert (E : c' = c) by apply (Hzh c Hc').
  destruct (contains (en_fragment cid idx) (universal_newlines e')) eqn:Hce'.
  - rewrite E, Hcc. fold c'. rewrite E.
    apply insert_id. rewrite lookup_insert_ne by done. apply lookup_insert_eq.
  - assert (E' : e' = e) by apply (Hen e Hce').
    rewrite E, Hcc, E', Hee. fold c' e'. rewrite E, E'.
    rewrite (insert_id (<[en_index:=e]> (<[zh_index:=c]> fs)) zh_index c)
      by (rewrite lookup_insert_ne by done; apply lookup_insert_eq).
    by rewrite insert_insert_eq.
Qed.

(** X1: [update_index] is idempotent for a problem index without a
    carriage return: run again with the same arguments on the world it
    left, it changes nothing, neither a file nor the trace.  (What was
    written is read back with its line ends translated; the link just
    written is found again because it has none to translate.) *)
Theorem update_index_idempotent cid idx en_title zh_title rating tags_en tags_zh w :
  no_cr idx = true ->
  let w1 := snd (update_index cid idx en_title zh_title rating tags_en tags_zh w) in
  update_index cid idx en_title zh_title rating tags_en tags_zh w1 = (tt, w1).
Proof.
  intros Hidx. cbn zeta. rewrite !update_index_files. cbn [snd files trace].
  by rewrite index_files_idempotent.
Qed.

(** X2: [update_index] prints nothing and asks nothing (the trace is as
    it was), leaves every file other than the two index files with its
    text, and creates no file: an index that was absent stays absent. *)
Theorem update_index_frame cid idx en_title zh_title rating tags_en tags_zh w :
  let w' := snd (update_index cid idx en_title zh_title rating tags_en tags_zh w) in
  trace w' = trace w
  /\ (forall q, q <> zh_index -> q <> en_index -> files w' !! q = files w !! q)
  /\ (forall q, is_Some (files w' !! q) <-> is_Some (files w !! q)).
Proof.
  cbn zeta. rewrite update_index_files. cbn [snd files trace].
  split; [done|]. split.
  - intros q Hz He. by apply index_files_elsewhere.
  - intros q. unfold index_files, text_of.
    destruct (files w !! zh_index) as [c|] eqn:Hz; [|done].
    cbn [fmap option_fmap option_map].
    destruct (contains (zh_fragment cid idx) _); [done|].
    assert (Hins : forall (m : gmap path str) k v v',
               m !! k = Some v -> is_Some (<[k:=v']> m !! q) <-> is_Some (m !! q)).
    { intros m k v v' Hk. destruct (decide (k = q)) as [->|Hkq].
      - rewrite lookup_insert_eq, Hk. split; eauto.
      - by rewrite lookup_insert_ne. }
    destruct (files w !! en_index) as [e|] eqn:He;
      cbn [fmap option_fmap option_map]; [destruct (contains _ _)|].
    + by apply Hins with c.
    + rewrite (Hins _ en_index e); [by apply Hins with c|].
      by rewrite lookup_insert_ne by apply zh_en_index.
    + by apply Hins with c.
Qed.

(** X4: when the header text of the contest occurs in the text read
    from the translated index but is nowhere followed by a blank line
    (as "## 1" occurs in the header "## 12"), and the link is absent,
    [update_index] writes that text back: the file holds what was read
    of it, and the problem is not listed. *)
Theorem update_index_header_without_section cid idx en_title zh_title rating tags_en tags_zh w c :
  text_of (files w) zh_index = Some c ->
  contains (zh_fragment cid idx) c = false ->
  contains (contest_header_of cid) c = true ->
  contains (contest_header_of cid ++ [NL; NL]) c = false ->
  files (snd (update_index cid idx en_title zh_title rating tags_en tags_zh w))
    !! zh_index = Some c.
Proof.
  intros Hz Hf Hh Hn. rewrite update_index_files. cbn [snd files].
  unfold index_files. rewrite Hz, Hf.
  assert (E : patch_index (contest_header_of cid) (header_cell idx rating)
                (zh_entry_of cid idx en_title zh_title tags_zh) c = c).
  { unfold patch_index, widen_table. rewrite Hh. cbn [negb].
    by rewrite search_table_none. }
  rewrite E.
  destruct (text_of (files w) en_index) as [e|]; [destruct (contains _ e)|];
    rewrite ?(lookup_insert_ne _ en_index zh_index)
      by (apply not_eq_sym, zh_en_index);
    by rewrite lookup_insert_eq.
Qed.

Lemma translate_truthy net text w :
  truthy (fst (translate net text w)) = truthy text.
Proof.
  unfold translate.
  destruct (negb (truthy text) || negb (truthy (strip text))) eqn:G; [done|].
  apply orb_false_elim in G as [G _]. apply negb_false_iff in G.
  rewrite !bind_run. cbn [fst snd mret M_ret emit].
  destruct (truthy (fst _)) eqn:E; by rewrite ?E, ?G.
Qed.

(** X9: [translate_problem] neither empties a field nor fills an empty
    one: each translated field is empty exactly when its source field
    is, so both documents have the same optional sections. *)
Theorem translate_problem_keeps_presence net p w :
  let t := fst (translate_problem net p w) in
  truthy (tr_title t) = truthy (title p)
  /\ truthy (tr_description t) = truthy (description p)
  /\ truthy (tr_input_section t) = truthy (input_section p)
  /\ truthy (tr_output_section t) = truthy (output_section p)
  /\ truthy (tr_note t) = truthy (note p).
Proof.
  unfold translate_problem. rewrite !bind_run. cbn [fst snd mret M_ret].
  cbn [tr_title tr_description tr_input_section tr_output_section tr_note].
  repeat split; try apply translate_truthy.
  destruct (truthy (note p)) eqn:E.
  - by rewrite translate_truthy.
  - done.
Qed.

Lemma libre_run net text w :
  exists r e,
    translate_libretranslate net text w
    = (r, World (files w) (trace w ++ LibreRequest text :: e))
    /\ (r <> [] -> e = []).
Proof.
  unfold translate_libretranslate. rewrite !bind_run.
  unfold history, emit. cbn [fst snd trace files].
  destruct (libre net (trace w) text) as [e|[t|]].
  - rewrite bind_run. cbn [fst snd mret M_ret trace files].
    eexists [], [_]. rewrite <- app_assoc. by split.
  - exists t, []. by split.
  - exists text, []. by split.
Qed.

Lemma mymemory_run net text w :
  exists r e,
    translate_mymemory net text w
    = (r, World (files w) (trace w ++ MyMemoryRequest text :: e)).
Proof.
  unfold translate_mymemory. rewrite !bind_run.
  unfold history, emit. cbn [fst snd trace files].
  destruct (mymemory net (trace w) text) as [e|st t].
  - rewrite bind_run. cbn [fst snd mret M_ret trace files].
    eexists [], [_]. by rewrite <- app_assoc.
  - destruct (st =? 200)%Z; by eexists _, [].
Qed.

(** X8: for a text that is not blank, [translate] asks LibreTranslate
    first and pauses last, and writes no file.  When LibreTranslate
    returned a non-empty text, nothing happens in between and that text
    is the result; when it returned the empty string, MyMemory is asked
    in between. *)
Theorem translate_asks_in_order net text w :
  truthy (strip text) = true ->
  let first := fst (translate_libretranslate net text w) in
  let w' := snd (translate net text w) in
  files w' = files w
  /\ exists mid,
      trace w' = trace w ++ LibreRequest text :: mid ++ [Sleep 500]
      /\ (first <> [] ->
          mid = [] /\ fst (translate net text w) = first)
      /\ (first = [] -> In (MyMemoryRequest text) mid).
Proof.
  intros Hnb first w'. split; [apply keeps_translate|].
  subst first w'. unfold translate.
  assert (Ht : truthy text = true).
  { destruct text; [|done]. by vm_compute in Hnb. }
  rewrite Ht, Hnb. cbn [negb orb].
  rewrite bind_run.
  destruct (libre_run net text w) as (r1 & e1 & E1 & He1).
  rewrite E1. cbn [fst snd].
  destruct r1 as [|c r1]; cbn [truthy negb].
  - rewrite bind_run.
    destruct (mymemory_run net text
                (World (files w) (trace w ++ LibreRequest text :: e1)))
      as (r2 & e2 & E2).
    rewrite E2. cbn [fst snd files trace]. rewrite bind_run.
    cbn [emit fst snd files trace mret M_ret].
    exists (e1 ++ MyMemoryRequest text :: e2).
    rewrite <- !app_assoc. cbn [app].
    split; [rewrite <- ?app_assoc; reflexivity|]. split; [done|].
    intros _. apply in_or_app. right. by left.
  - rewrite (He1 ltac:(done)).
    rewrite !bind_run. cbn [emit fst snd files trace mret M_ret truthy].
    exists []. rewrite <- !app_assoc. cbn [app].
    split; [done|]. split; [done|]. done.
Qed.
Section RunMore.
Variables upper lower : str -> str.
Variable html_to_markdown : node -> str.
Variable cf : site.
Variable net : translators.

Local Abbreviation run := (run_translate upper lower html_to_markdown cf net).

(** What a run makes of the documentation tree: nothing, or the two
    documents and then the index update. *)
Lemma run_translate_files cid idx author force w :
  files (snd (run cid idx author force w)) = files w
  \/ exists p t rating tags_en tags_zh,
      files (snd (run cid idx author force w))
      = index_files cid (upper idx) (title p) (tr_title t) rating tags_en tags_zh
          (<[md_file (u8 "en") cid (upper idx) := build_en_md p cid (upper idx)]>
             (<[md_file (u8 "zh") cid (upper idx) :=
                  build_zh_md p t cid (upper idx) author]> (files w))).
Proof.
  unfold run_translate.
  rewrite bind_run. unfold exists_file. cbn [fst snd].
  destruct (bool_decide _ && negb force) eqn:Hskip.
  { left. by rewrite bind_run. }
  rewrite bind_run. cbn [emit fst snd]. rewrite bind_run.
  set (w1 := World _ _).
  pose proof (keeps_fetch_problem html_to_markdown cf cid (upper idx) w1) as Hf.
  destruct (fetch_problem _ _ _ _ w1) as [fetched w2]. cbn [fst snd] in *.
  destruct fetched as [[|p]|]; [left | | left];
    try (rewrite bind_run; cbn; by rewrite Hf).
  right. rewrite bind_run.
  pose proof (keeps_get_problem_meta cf cid (upper idx) w2) as Hm.
  destruct (get_problem_meta _ _ _ w2) as [m w3]. cbn [fst snd] in *.
  rewrite bind_run. cbn [emit fst snd]. rewrite bind_run.
  set (w4 := World _ _).
  pose proof (keeps_translate_problem net p w4) as Ht.
  destruct (translate_problem net p w4) as [t w5]. cbn [fst snd] in *.
  rewrite !bind_run. unfold write_text. cbn [fst snd files trace].
  rewrite update_index_files. cbn [fst snd files trace emit mret M_ret].
  exists p, t. eexists _, _, _.
  rewrite Ht. subst w4. cbn [files]. rewrite Hm, Hf. subst w1. reflexivity.
Qed.

(** X15: for a problem index that is a file name (no "/" in it),
    [run_translate] leaves every file other than the two markdown files
    of the problem and the two index files with its text, whatever the
    site and the services answer. *)
Theorem run_translate_frame cid idx author force w q :
  plain_index (upper idx) = true ->
  q <> md_file (u8 "zh") cid (upper idx) ->
  q <> md_file (u8 "en") cid (upper idx) ->
  q <> zh_index -> q <> en_index ->
  files (snd (run cid idx author force w)) !! q = files w !! q.
Proof.
  intros _ Hz He Hzi Hei.
  destruct (run_translate_files cid idx author force w)
    as [E | (p & t & r & te & tz & E)]; rewrite E; [done|].
  rewrite index_files_elsewhere by done.
  by rewrite !lookup_insert_ne by done.
Qed.

(** X16: a forced run on a problem whose link the translated index, as
    it is read, already holds writes both markdown files anew and
    reports success, and leaves both index files as they are: forcing
    adds no second entry. *)
Theorem run_translate_forced_keeps_index cid idx author w soup p c :
  (forall h, page cf h cid (upper idx) = PageHtml soup) ->
  parse_problem_html html_to_markdown soup = Some (Dict p) ->
  text_of (files w) zh_index = Some c ->
  contains (zh_fragment cid (upper idx)) c = true ->
  let r := run cid idx author true w in
  fst r = true
  /\ files (snd r) !! zh_index = files w !! zh_index
  /\ files (snd r) !! en_index = files w !! en_index
  /\ files (snd r) !! md_file (u8 "en") cid (upper idx)
     = Some (build_en_md p cid (upper idx))
  /\ exists t, files (snd r) !! md_file (u8 "zh") cid (upper idx)
               = Some (build_zh_md p t cid (upper idx) author).
Proof.
  intros Hp Hd Hz Hc r.
  destruct (run_translate_written upper lower html_to_markdown cf net cid idx
              author true w soup p (or_introl eq_refl) Hp Hd)
    as (m & Hb & Hfiles).
  fold r in Hb, Hfiles. split; [done|]. rewrite Hfiles.
  assert (Hzi : forall lang, zh_index <> md_file lang cid (upper idx))
    by (intros lang; apply not_eq_sym, md_file_not_index).
  assert (Hei : forall lang, en_index <> md_file lang cid (upper idx))
    by (intros lang; apply not_eq_sym, md_file_not_index).
  unfold index_files.
  rewrite !(text_of_insert_ne _ _ zh_index) by (apply not_eq_sym, Hzi).
  rewrite Hz, Hc.
  rewrite !(lookup_insert_ne _ _ en_index) by (apply not_eq_sym, Hei).
  rewrite !(lookup_insert_ne _ _ zh_index) by (apply not_eq_sym, Hzi).
  split; [done|]. split; [done|].
  rewrite lookup_insert_eq. split; [done|].
  eexists. rewrite lookup_insert_ne by (apply not_eq_sym, md_file_zh_en).
  by rewrite lookup_insert_eq.
Qed.
End RunMore.

(** X3: let [c] be the text read from the translated index.  When it
    holds the link of the problem, [update_index] leaves the file as it
    is.  Otherwise the file afterwards holds the link, or it holds [c]
    (what was read of it, its line ends now line feeds) and [c] contains
    the header of the contest; without the header in [c], the link is
    there afterwards. *)
Theorem update_index_lists_problem cid idx en_title zh_title rating tags_en tags_zh w c :
  text_of (files w) zh_index = Some c ->
  let w' := snd (update_index cid idx en_title zh_title rating tags_en tags_zh w) in
  (contains (zh_fragment cid idx) c = true ->
   files w' !! zh_index = files w !! zh_index)
  /\ (contains (zh_fragment cid idx) c = false ->
      exists c',
        files w' !! zh_index = Some c'
        /\ (contains (zh_fragment cid idx) c' = true
            \/ (c' = c /\ contains (contest_header_of cid) c = true))
        /\ (contains (contest_header_of cid) c = false ->
            contains (zh_fragment cid idx) c' = true)).
Proof.
  intros Hz w'. subst w'. rewrite update_index_files. cbn [snd files].
  unfold index_files. rewrite Hz.
  split; intros Hc; rewrite Hc; [done|].
  set (c' := patch_index _ _ _ c). exists c'.
  split.
  { destruct (text_of (files w) en_index) as [e|]; [destruct (contains _ e)|];
      rewrite ?(lookup_insert_ne _ en_index zh_index)
        by (apply not_eq_sym, zh_en_index);
      by rewrite lookup_insert_eq. }
  assert (Hfrag : contains (zh_entry_of cid idx en_title zh_title tags_zh) c' = true ->
                  contains (zh_fragment cid idx) c' = true)
    by (apply contains_trans, zh_entry_has_fragment).
  split.
  - destruct (patch_index_outcome (contest_header_of cid) (header_cell idx rating)
                (zh_entry_of cid idx en_title zh_title tags_zh) c) as [E|E].
    + destruct (contains (contest_header_of cid) c) eqn:Hh; [right; by split|].
      left. apply Hfrag. unfold c', patch_index. rewrite Hh. cbn [negb].
      unfold new_block. has_part.
    + left. by apply Hfrag.
  - intros Hh. apply Hfrag. unfold c', patch_index. rewrite Hh. cbn [negb].
    unfold new_block. has_part.
Qed.

(** ** Stripping *)

Lemma drop_while_suffix p s : exists x, s = x ++ drop_while p s.
Proof.
  induction s as [|c s [x IH]]; [by exists []|].
  cbn [drop_while]. destruct (p c); [|by exists []].
  exists (c :: x). cbn [app]. by rewrite <- IH.
Qed.

Lemma drop_while_stops p s c r : drop_while p s = c :: r -> p c = false.
Proof.
  induction s as [|d s IH]; [done|]. cbn [drop_while].
  destruct (p d) eqn:E; [done|]. by intros [= <- _].
Qed.

Lemma drop_while_id p s : head s = None \/ (exists c, head s = Some c /\ p c = false) ->
  drop_while p s = s.
Proof.
  destruct s as [|d s]; [done|]. intros [H|(c & [= <-] & Hc)]; [done|].
  cbn [drop_while]. by rewrite Hc.
Qed.

Lemma rstrip_by_prefix p s : exists x, s = rstrip_by p s ++ x.
Proof.
  unfold rstrip_by. destruct (drop_while_suffix p (rev s)) as [x E].
  exists (rev x). rewrite <- rev_app_distr, <- E. by rewrite rev_involutive.
Qed.

Lemma rstrip_by_twice p s : rstrip_by p (rstrip_by p s) = rstrip_by p s.
Proof.
  unfold rstrip_by. rewrite rev_involutive. f_equal.
  apply drop_while_id.
  destruct (drop_while p (rev s)) as [|c r] eqn:E; [by left|].
  right. exists c. split; [done|]. by apply (drop_while_stops p (rev s) c r).
Qed.

Lemma lstrip_by_twice p s : lstrip_by p (lstrip_by p s) = lstrip_by p s.
Proof.
  unfold lstrip_by. apply drop_while_id.
  destruct (drop_while p s) as [|c r] eqn:E; [by left|].
  right. exists c. split; [done|]. by apply (drop_while_stops p s c r).
Qed.

Lemma length_drop_while p s : (length (drop_while p s) <= length s)%nat.
Proof.
  induction s as [|c s IH]; [done|]. cbn [drop_while].
  destruct (p c); cbn [length]; lia.
Qed.

(** Cutting the front off a text that does not end in [p] leaves one
    that does not end in [p]. *)
Lemma rstrip_by_lstrip p s :
  rstrip_by p s = s -> rstrip_by p (lstrip_by p s) = lstrip_by p s.
Proof.
  intros Hs. unfold lstrip_by.
  destruct (drop_while_suffix p s) as [x E].
  destruct (drop_while p s) as [|c r] eqn:D; [done|].
  unfold rstrip_by in *.
  assert (Hrev : rev s = rev (c :: r) ++ rev x)
    by (rewrite E at 1; apply rev_app_distr).
  rewrite Hrev in Hs.
  destruct (rev (c :: r)) as [|d t] eqn:R.
  { apply (f_equal (@length N)) in R. rewrite length_rev in R. done. }
  cbn [app drop_while] in Hs. cbn [drop_while].
  destruct (p d) eqn:Pd.
  - exfalso. apply (f_equal (@length N)) in Hs. rewrite length_rev in Hs.
    pose proof (length_drop_while p (t ++ rev x)) as Hle.
    apply (f_equal (@length N)) in Hrev. rewrite length_rev in Hrev.
    cbn [app length] in Hrev. lia.
  - by rewrite <- R, rev_involutive.
Qed.

Lemma strip_twice s : strip (strip s) = strip s.
Proof.
  unfold strip, lstrip, rstrip.
  rewrite (rstrip_by_lstrip isspace (rstrip_by isspace s))
    by apply rstrip_by_twice.
  apply lstrip_by_twice.
Qed.

Lemma strip_clean s : rstrip (strip s) = strip s /\ lstrip (strip s) = strip s.
Proof.
  unfold strip, lstrip, rstrip. split.
  - apply rstrip_by_lstrip, rstrip_by_twice.
  - apply lstrip_by_twice.
Qed.

(** A text that starts with a character [strip] keeps starts with it
    after stripping. *)
Lemma strip_keeps_head c s :
  isspace c = false -> exists s', strip (c :: s) = c :: s'.
Proof.
  intros Hc. unfold strip, lstrip, rstrip, lstrip_by, rstrip_by.
  cbn [rev].
  assert (H : exists t, drop_while isspace (rev s ++ [c]) = t ++ [c]).
  { induction (rev s) as [|d l IH]; cbn [app drop_while].
    - rewrite Hc. by exists [].
    - destruct (isspace d); [done|]. by exists (d :: l). }
  destruct H as [t ->]. rewrite rev_app_distr. cbn [rev app drop_while].
  rewrite Hc. by eexists.
Qed.

Lemma join_cons2 sep p q ps :
  join sep (p :: q :: ps) = p ++ sep ++ join sep (q :: ps).
Proof. done. Qed.

(** X11: both rendered documents are a body followed by one newline,
    where the body has no whitespace at either end; the translated
    document starts with the "-" of its front matter, the original one
    with the "#" of its heading. *)
Theorem documents_are_trimmed p t cid idx author :
  (exists body,
      build_zh_md p t cid idx author = body ++ [NL]
      /\ strip body = body
      /\ exists rest, body = u8 "-" ++ rest)
  /\ (exists body,
      build_en_md p cid idx = body ++ [NL]
      /\ strip body = body
      /\ exists rest, body = u8 "#" ++ rest).
Proof.
  split.
  - unfold build_zh_md. eexists. split; [reflexivity|]. split; [apply strip_twice|].
    unfold zh_lines. cbn [app]. rewrite join_cons2.
    apply (strip_keeps_head 45). reflexivity.
  - unfold build_en_md. eexists. split; [reflexivity|]. split; [apply strip_twice|].
    unfold en_lines. cbn [app]. rewrite join_cons2.
    apply (strip_keeps_head 35). reflexivity.
Qed.

(** ** Problem extractor: header and title *)

Lemma find_with_next_found p (n : node) :
  fst <$> find_with_next p n
  = head (filter (fun x => p x = true) (descendants n)).
Proof.
  revert n. fix IH 1. intros [s|nm cs kids]; [done|].
  cbn [find_with_next descendants].
  induction kids as [|k kids IHk]; [done|].
  rewrite filter_cons.
  destruct (p k) eqn:Pk.
  - rewrite decide_True by done. done.
  - rewrite decide_False by done.
    rewrite filter_app.
    specialize (IH k).
    destruct (find_with_next p k) as [r|].
    + cbn [fmap option_fmap option_map] in IH |- *.
      destruct (filter _ (descendants k)) as [|x l]; [done|].
      cbn [head app] in IH |- *. done.
    + cbn [fmap option_fmap option_map] in IH.
      destruct (filter _ (descendants k)) as [|x l]; [|done].
      cbn [app]. apply IHk.
Qed.

Lemma find_header_none ps :
  find_with_next (is_tag DIV (u8 "header")) ps = None
  <-> find DIV (u8 "header") ps = None.
Proof.
  unfold find, find_all.
  rewrite <- (find_with_next_found (is_tag DIV (u8 "header")) ps).
  by destruct (find_with_next _ ps).
Qed.

(** X12: [parse_problem_html] raises exactly when the page has a
    problem-statement block without a header block. *)
Theorem parse_problem_html_raises h2m soup :
  parse_problem_html h2m soup = None
  <-> exists ps, find DIV (u8 "problem-statement") soup = Some ps
                 /\ find DIV (u8 "header") ps = None.
Proof.
  unfold parse_problem_html.
  destruct (find DIV (u8 "problem-statement") soup) as [ps|].
  2:{ split; [done|]. by intros (ps & [=] & _). }
  destruct (find_with_next (is_tag DIV (u8 "header")) ps) as [[header after]|] eqn:E.
  - destruct (extract_section h2m (u8 "input-specification") ps) as [i ps1].
    destruct (extract_section h2m (u8 "output-specification") ps1) as [o ps2].
    destruct (extract_section h2m (u8 "note") ps2) as [n ps3].
    split; [done|]. intros (ps' & [= <-] & H).
    apply find_header_none in H. by rewrite H in E.
  - split; [|done]. intros _. exists ps. split; [done|].
    by apply find_header_none.
Qed.

(** X13: on a page whose problem-statement block has no header, the
    exception is caught in [fetch_problem]; [run_translate] prints the
    failure, returns [False] and writes no file. *)
Theorem headerless_page_gives_up upper lower h2m cf net cid idx author force w
        soup ps :
  find DIV (u8 "problem-statement") soup = Some ps ->
  find DIV (u8 "header") ps = None ->
  force = true \/ files w !! md_file (u8 "zh") cid (upper idx) = None ->
  (forall h, page cf h cid (upper idx) = PageHtml soup) ->
  run_translate upper lower h2m cf net cid idx author force w
  = (false,
     World (files w)
           (trace w ++ [processing cid (upper idx);
                        PageRequest cid (upper idx);
                        Stderr (u8 "抓取失败: 'NoneType' object has no attribute 'find'");
                        given_up])).
Proof.
  intros Hps Hh Hns Hp.
  assert (Hd : parse_problem_html h2m soup = None)
    by (apply parse_problem_html_raises; eauto).
  unfold run_translate.
  rewrite bind_run. unfold exists_file. cbn [fst snd].
  rewrite (not_skipped _ _ _ Hns).
  rewrite bind_run. cbn [emit fst snd]. rewrite bind_run.
  unfold fetch_problem. rewrite !bind_run.
  unfold history, emit. cbn [fst snd trace files].
  rewrite Hp, Hd.
  repeat (rewrite bind_run; cbn [fst snd files trace mret M_ret]).
  unfold processing, given_up. by rewrite <- !app_assoc.
Qed.

Lemma digits_not_question d : digits d <> u8 "?".
Proof. destruct d as [|d|d|d|d|d|d|d|d|d|d]; done. Qed.

Lemma str_of_Z_not_question z : str_of_Z z <> u8 "?".
Proof.
  unfold str_of_Z, str_of_N. destruct z; try apply digits_not_question.
  intros H. by vm_compute in H.
Qed.

(** X14: [get_problem_meta] makes one request and writes nothing.  The
    rating shown in the index is "?" unless the standings answered with
    status OK and list the problem with a rating, and the tag list is
    empty unless they list the problem with these tags. *)
Theorem get_problem_meta_sources cf cid idx w :
  let m := fst (get_problem_meta cf cid idx w) in
  let shown := from_option str_of_Z (u8 "?") (m ≫= rating) in
  let tags_en := from_option tags [] m in
  snd (get_problem_meta cf cid idx w)
  = World (files w) (trace w ++ [MetaRequest cid])
  /\ (shown <> u8 "?" ->
      exists ps p z, standings cf (trace w) cid = MetaJson true ps
                     /\ p ∈ ps /\ mp_index p = idx
                     /\ mp_rating p = Some z /\ shown = str_of_Z z)
  /\ (tags_en <> [] ->
      exists ps p, standings cf (trace w) cid = MetaJson true ps
                   /\ p ∈ ps /\ mp_index p = idx
                   /\ mp_tags p = Some tags_en).
Proof.
  unfold get_problem_meta. rewrite !bind_run.
  unfold history, emit. cbn [fst snd trace files].
  destruct (standings cf (trace w) cid) as [|[] ps];
    cbn [fst snd mret M_ret mbind option_bind from_option rating tags];
    try (split; [done|]; split; done).
  destruct (head (filter _ ps)) as [p|] eqn:Hh;
    cbn [fst snd mret M_ret mbind option_bind from_option rating tags];
    [|split; [done|]; split; done].
  assert (Hin : p ∈ ps /\ mp_index p = idx).
  { destruct (filter _ ps) as [|x l] eqn:F; [done|].
    injection Hh as ->.
    assert (Hx : p ∈ filter (fun q => mp_index q = idx) ps)
      by (rewrite F; left).
    by apply list_elem_of_filter in Hx as [? ?]. }
  destruct Hin as [Hin Hidx].
  split; [done|]. split.
  - destruct (mp_rating p) as [z|] eqn:Hr; cbn [from_option]; [|done].
    intros _. by exists ps, p, z.
  - destruct (mp_tags p) as [ts|] eqn:Ht; cbn [default from_option id]; [|done].
    intros _. by exists ps, p.
Qed.

(** ** Index synchroniser: the shape it keeps *)

Lemma match_table_three_lines hdr s :
  match_table hdr s
  = if starts_with (hdr ++ [NL; NL]) s
    then three_lines (drop (length hdr + 2) s) else None.
Proof. reflexivity. Qed.

Lemma split_line (v : str) :
  forallb notnl v = true
  \/ exists a b, v = a ++ NL :: b /\ forallb notnl a = true.
Proof.
  induction v as [|c v IH]; [by left|].
  destruct (notnl c) eqn:Hc.
  - destruct IH as [H|(a & b & -> & Ha)].
    + left. cbn [forallb]. by rewrite Hc.
    + right. exists (c :: a), b. split; [done|]. cbn [forallb]. by rewrite Hc.
  - right. exists [], v. split; [|done]. cbn [app]. f_equal.
    unfold notnl in Hc. apply negb_false_iff in Hc. by apply N.eqb_eq in Hc.
Qed.

Lemma line_nl_blank r : line_nl (NL :: r) = None.
Proof. reflexivity. Qed.

Lemma line_nl_cases a r :
  forallb notnl a = true ->
  line_nl (a ++ NL :: r) = if truthy a then Some (a ++ [NL], r) else None.
Proof.
  intros Ha. destruct a as [|c a]; [done|].
  by rewrite line_nl_line.
Qed.

(** Before a blank line, whether three lines are found does not depend
    on what follows the blank line. *)
Lemma three_lines_before_blank v x y :
  three_lines (v ++ NL :: NL :: x) = None ->
  three_lines (v ++ NL :: NL :: y) = None.
Proof.
  unfold three_lines.
  destruct (split_line v) as [Hv|(a & v1 & -> & Ha)].
  { rewrite !line_nl_cases by done. destruct (truthy v); [|done].
    by rewrite !line_nl_blank. }
  rewrite <- !app_assoc. cbn [app]. rewrite !line_nl_cases by done.
  destruct (truthy a); [|done].
  destruct (split_line v1) as [Hv1|(b & v2 & -> & Hb)].
  { rewrite !line_nl_cases by done. destruct (truthy v1); [|done].
    cbn [take_while notnl]. done. }
  rewrite <- !app_assoc. cbn [app]. rewrite !line_nl_cases by done.
  destruct (truthy b); [|done].
  destruct (split_line v2) as [Hv2|(c & v3 & -> & Hc)].
  - rewrite !take_while_line by done. by destruct v2.
  - rewrite <- !app_assoc. cbn [app]. rewrite !take_while_line by done.
    by destruct c.
Qed.

Lemma starts_with_short p a x :
  (length p <= length a)%nat -> starts_with p (a ++ x) = starts_with p a.
Proof.
  revert a. induction p as [|c p IH]; intros a Hl; [done|].
  destruct a as [|d a]; [cbn in Hl; lia|].
  cbn [app starts_with]. rewrite IH; [done|]. cbn in Hl. lia.
Qed.

Lemma starts_with_front a b s :
  starts_with (a ++ b) s = true -> starts_with a s = true.
Proof.
  revert s. induction a as [|c a IH]; intros s; [done|].
  destruct s as [|d s]; [done|]. cbn [app starts_with].
  intros [-> H]%andb_prop. by rewrite (IH s H).
Qed.

(** Left of a header followed by a blank line, whether the pattern
    matches does not depend on what follows that blank line. *)
Lemma match_table_before_section hdr front x y :
  front <> [] ->
  match_table hdr (front ++ hdr ++ NL :: NL :: x) = None ->
  match_table hdr (front ++ hdr ++ NL :: NL :: y) = None.
Proof.
  intros Hne. rewrite !match_table_three_lines.
  set (u := front ++ hdr).
  assert (Hlen : (length hdr + 1 <= length u)%nat).
  { unfold u. rewrite length_app. destruct front; [done|]. cbn [length]. lia. }
  assert (Hsw : forall z, starts_with (hdr ++ [NL; NL]) (front ++ hdr ++ NL :: NL :: z)
                 = starts_with (hdr ++ [NL; NL]) (u ++ [NL])).
  { intros z. rewrite (app_assoc front hdr). fold u.
    change (u ++ NL :: NL :: z) with (u ++ [NL] ++ NL :: z).
    rewrite app_assoc. apply starts_with_short.
    rewrite !length_app. cbn [length]. lia. }
  rewrite !Hsw. destruct (starts_with _ (u ++ [NL])); [|done].
  rewrite !(app_assoc front hdr). fold u.
  destruct (decide (length hdr + 2 <= length u)%nat) as [Hbig|Hsmall].
  - rewrite !drop_app_le by done. apply three_lines_before_blank.
  - assert (Hu : length u = (length hdr + 1)%nat) by lia.
    rewrite !drop_app_ge by lia.
    replace (length hdr + 2 - length u)%nat with 1%nat by lia.
    cbn [drop]. unfold three_lines. by rewrite !line_nl_blank.
Qed.

Lemma good_cells_one c :
  good_cells [c] = forallb notnl c && ends_solid c.
Proof. unfold good_cells. cbn. by rewrite andb_true_r. Qed.

Lemma good_cells_snoc hc c :
  good_cells hc = true -> good_cells [c] = true -> good_cells (hc ++ [c]) = true.
Proof.
  rewrite good_cells_one. unfold good_cells.
  intros [Hh _]%andb_prop [Hc Hs]%andb_prop.
  rewrite forallb_app, Hh, last_snoc. cbn. by rewrite Hc, Hs.
Qed.

(** X6: widening keeps the invariant: when the new header cell and the
    new entry have no newline and end in a character that is neither
    blank nor a bar, the widened text again holds the section in the
    three-line shape at the place the pattern finds. *)
Theorem widen_keeps_shape hdr cell entry pre hc sc rc post content :
  section_at hdr pre hc sc rc post content ->
  good_cells [cell] = true -> good_cells [entry] = true ->
  section_at hdr pre (hc ++ [cell]) (sc ++ [u8 ":-:"]) (rc ++ [entry])
             (NL :: post) (patch_index hdr cell entry content).
Proof.
  intros Hsec Hcell Hentry.
  rewrite (patch_index_widens _ _ _ _ _ _ _ _ _ Hsec).
  destruct Hsec as (-> & Hh & Hs & Hr & Hpost & Hleft).
  split; [done|].
  split; [by apply good_cells_snoc|].
  split; [by apply good_cells_snoc|].
  split; [by apply good_cells_snoc|].
  split; [right; by eexists|].
  intros k Hk. specialize (Hleft k Hk).
  unfold section_text in *.
  rewrite drop_app_le in Hleft |- * by lia.
  cbn [app] in Hleft |- *.
  eapply match_table_before_section; [|exact Hleft].
  intros E. apply (f_equal (@length N)) in E.
  rewrite length_drop in E. cbn [length] in E. lia.
Qed.

Lemma starts_with_no_newline hdr a x :
  forallb notnl hdr = true ->
  starts_with hdr (a ++ NL :: x) = true -> starts_with hdr a = true.
Proof.
  revert a. induction hdr as [|h hdr IH]; intros a Hh; [done|].
  cbn [forallb] in Hh. apply andb_prop in Hh as [Hn Hh].
  destruct a as [|d a]; cbn [app starts_with].
  - intros [E _]%andb_prop. apply N.eqb_eq in E. subst h. done.
  - intros [-> H]%andb_prop. by rewrite (IH a Hh H).
Qed.

(** X5: on a text without the header of the contest, the patch is the
    text without its trailing whitespace followed by the new section,
    and this section is in the three-line shape at the place the
    pattern finds (for a header, a cell and an entry without newline). *)
Theorem new_section_shape hdr cell entry content :
  contains hdr content = false ->
  forallb notnl hdr = true ->
  good_cells [cell] = true -> good_cells [entry] = true ->
  patch_index hdr cell entry content
  = section_text hdr (rstrip content ++ [NL]) [cell] [u8 ":-:"] [entry] [NL; NL]
  /\ section_at hdr (rstrip content ++ [NL]) [cell] [u8 ":-:"] [entry] [NL; NL]
                (patch_index hdr cell entry content).
Proof.
  intros Hno Hhdr Hcell Hentry.
  assert (E : patch_index hdr cell entry content
              = section_text hdr (rstrip content ++ [NL]) [cell] [u8 ":-:"]
                             [entry] [NL; NL]).
  { unfold patch_index. rewrite Hno. cbn [negb].
    unfold new_block, section_text, table_line. cbn [map concat].
    rewrite !app_nil_r. change (u8 "|:-:|") with (u8 "|" ++ u8 ":-:" ++ u8 "|").
    by rewrite <- !app_assoc. }
  split; [exact E|]. rewrite E.
  split; [done|]. split; [done|]. split; [done|]. split; [done|].
  split; [right; by eexists|].
  intros k Hk. rewrite length_app in Hk. cbn [length] in Hk.
  unfold section_text. rewrite <- !app_assoc.
  rewrite drop_app_le by lia. cbn [app].
  rewrite match_table_three_lines.
  destruct (starts_with (hdr ++ [NL; NL]) _) eqn:S; [exfalso|done].
  apply starts_with_front, starts_with_no_newline in S; [|done].
  apply contains_here in S.
  destruct (rstrip_by_prefix isspace content) as [x Hx].
  assert (Hc : contains hdr content = true).
  { rewrite Hx. apply contains_front.
    rewrite <- (take_drop k (rstrip_by isspace content)).
    by apply contains_later. }
  by rewrite Hc in Hno.
Qed.

Lemma digits_one_line d : forallb notnl (digits d) = true.
Proof. induction d; cbn [digits forallb]; by rewrite ?IHd. Qed.

Lemma str_of_Z_one_line z : forallb notnl (str_of_Z z) = true.
Proof.
  unfold str_of_Z, str_of_N. destruct z; apply digits_one_line.
Qed.

Lemma contest_header_one_line cid : forallb notnl (contest_header_of cid) = true.
Proof.
  unfold contest_header_of. rewrite forallb_app, str_of_Z_one_line. done.
Qed.

Lemma ends_solid_snoc s c :
  isspace c = false -> (c =? BAR) = false -> ends_solid (s ++ [c]) = true.
Proof. intros Hs Hb. unfold ends_solid. by rewrite last_snoc, Hs, Hb. Qed.

Lemma header_cell_good idx r :
  forallb notnl idx = true -> forallb notnl r = true ->
  good_cells [header_cell idx r] = true.
Proof.
  intros Hi Hr. rewrite good_cells_one. unfold header_cell.
  rewrite !forallb_app, Hi, Hr. cbn [andb].
  change (u8 "]") with [93]. rewrite !app_assoc.
  by rewrite ends_solid_snoc.
Qed.

Lemma zh_entry_good cid idx en_title zh_title tags_zh :
  forallb notnl idx = true -> forallb notnl en_title = true ->
  forallb notnl zh_title = true -> forallb notnl tags_zh = true ->
  good_cells [zh_entry_of cid idx en_title zh_title tags_zh] = true.
Proof.
  intros Hi He Hz Ht. rewrite good_cells_one. unfold zh_entry_of, zh_fragment.
  rewrite !forallb_app, Hi, He, Hz, Ht, str_of_Z_one_line. cbn [andb].
  change (u8 "）") with [65289]. rewrite !app_assoc.
  by rewrite ends_solid_snoc.
Qed.

Lemma en_entry_good cid idx en_title tags_en :
  forallb notnl idx = true -> forallb notnl en_title = true ->
  forallb notnl (join (u8 ", ") tags_en) = true ->
  good_cells [en_entry_of cid idx en_title tags_en] = true.
Proof.
  intros Hi He Ht. rewrite good_cells_one. unfold en_entry_of, en_fragment.
  rewrite !forallb_app, Hi, He, Ht, str_of_Z_one_line. cbn [andb].
  change (u8 ")") with [41]. rewrite !app_assoc.
  by rewrite ends_solid_snoc.
Qed.

(** The translated index after [update_index], when it was there
    without the link of the problem. *)
Lemma update_index_zh cid idx en_title zh_title rating tags_en tags_zh w c :
  text_of (files w) zh_index = Some c ->
  contains (zh_fragment cid idx) c = false ->
  files (snd (update_index cid idx en_title zh_title rating tags_en tags_zh w))
    !! zh_index
  = Some (patch_index (contest_header_of cid) (header_cell idx rating)
            (zh_entry_of cid idx en_title zh_title tags_zh) c).
Proof.
  intros Hz Hf. rewrite update_index_files. cbn [snd files].
  unfold index_files. rewrite Hz, Hf.
  destruct (text_of (files w) en_index) as [e|]; [destruct (contains _ e)|];
    rewrite ?(lookup_insert_ne _ en_index zh_index)
      by (apply not_eq_sym, zh_en_index);
    by rewrite lookup_insert_eq.
Qed.

Lemma no_cr_rstrip c : no_cr c = true -> no_cr (rstrip c) = true.
Proof.
  intros H. destruct (rstrip_by_prefix isspace c) as [x E].
  rewrite E, no_cr_app in H. by apply andb_prop in H as [? _].
Qed.

(** X7: two runs of [update_index] for two problems of a contest that
    the translated index, as it is read, does not know yet give one
    section with a two-column table, the first problem in the first
    column (for texts of the first problem without line feed and
    without carriage return, and with the link of the second problem
    absent after the first run). *)
Theorem two_problems_one_table cid w c
        idx en_title zh_title rating tags_en tags_zh
        idx' en_title' zh_title' rating' tags_en' tags_zh' :
  text_of (files w) zh_index = Some c ->
  contains (contest_header_of cid) c = false ->
  contains (zh_fragment cid idx) c = false ->
  plain_line idx = true -> plain_line rating = true ->
  plain_line en_title = true -> plain_line zh_title = true ->
  plain_line tags_zh = true ->
  let hdr := contest_header_of cid in
  let entry := zh_entry_of cid idx en_title zh_title tags_zh in
  let entry' := zh_entry_of cid idx' en_title' zh_title' tags_zh' in
  let c1 := section_text hdr (rstrip c ++ [NL]) [header_cell idx rating]
                         [u8 ":-:"] [entry] [NL; NL] in
  contains (zh_fragment cid idx') c1 = false ->
  let w1 := snd (update_index cid idx en_title zh_title rating tags_en tags_zh w) in
  let w2 := snd (update_index cid idx' en_title' zh_title' rating' tags_en'
                              tags_zh' w1) in
  files w1 !! zh_index = Some c1
  /\ files w2 !! zh_index
     = Some (section_text hdr (rstrip c ++ [NL])
               [header_cell idx rating; header_cell idx' rating']
               [u8 ":-:"; u8 ":-:"] [entry; entry'] [NL; NL; NL]).
Proof.
  intros Hz Hh Hf [Hi Hi']%andb_prop [Hr Hr']%andb_prop [He He']%andb_prop
         [Hzt Hzt']%andb_prop [Ht Ht']%andb_prop hdr entry entry' c1 Hf' w1 w2.
  destruct (new_section_shape hdr (header_cell idx rating) entry c Hh
              (contest_header_one_line cid) (header_cell_good _ _ Hi Hr)
              (zh_entry_good cid _ _ _ _ Hi He Hzt Ht)) as [E Hsec].
  assert (H1 : files w1 !! zh_index = Some c1).
  { unfold w1. rewrite (update_index_zh _ _ _ _ _ _ _ _ c Hz Hf). f_equal. exact E. }
  assert (Hcc : no_cr c = true)
    by (rewrite <- (text_of_clean _ _ _ Hz); apply universal_newlines_no_cr).
  assert (T1 : text_of (files w1) zh_index = Some c1).
  { unfold text_of. rewrite H1. cbn [fmap option_fmap option_map]. f_equal.
    apply universal_newlines_id.
    unfold c1, section_text, table_line, hdr, entry, contest_header_of,
      header_cell, zh_entry_of, zh_fragment.
    cbn [map concat].
    rewrite !no_cr_app, (no_cr_rstrip c Hcc), !str_of_Z_no_cr, !Hi', Hr', He',
      Hzt', Ht'.
    reflexivity. }
  split; [exact H1|].
  unfold w2. rewrite (update_index_zh _ _ _ _ _ _ _ _ c1 T1 Hf').
  rewrite E in Hsec. f_equal.
  exact (patch_index_widens _ _ _ _ _ _ _ _ _ Hsec).
Qed.

(** ** Translation client: pauses *)

Lemma count_app f a b : count f (a ++ b) = (count f a + count f b)%nat.
Proof. unfold count. by rewrite List.filter_app, length_app. Qed.

Lemma translate_events net text w :
  exists evs,
    trace (snd (translate net text w)) = trace w ++ evs
    /\ count is_libre evs = (if truthy (strip text) then 1 else 0)%nat
    /\ count is_pause evs = (if truthy (strip text) then 1 else 0)%nat.
Proof.
  unfold translate.
  destruct (truthy (strip text)) eqn:Hnb.
  2:{ rewrite orb_true_r. exists []. by rewrite app_nil_r. }
  assert (Ht : truthy text = true).
  { destruct text; [|done]. by vm_compute in Hnb. }
  rewrite Ht. cbn [negb orb]. rewrite bind_run.
  unfold translate_libretranslate. rewrite !bind_run.
  unfold history, emit. cbn [fst snd trace files].
  assert (Hmm : forall w0, exists e2,
             trace (snd (translate_mymemory net text w0)) = trace w0 ++ e2
             /\ count is_libre e2 = 0%nat /\ count is_pause e2 = 0%nat).
  { intros w0. unfold translate_mymemory. rewrite !bind_run.
    unfold history, emit. cbn [fst snd trace files].
    destruct (mymemory net (trace w0) text) as [e|st t].
    - rewrite bind_run. cbn [fst snd mret M_ret trace files].
      eexists [_; _]. by rewrite <- app_assoc.
    - destruct (st =? 200)%Z; by eexists [_]. }
  destruct (libre net (trace w) text) as [e|[[|c t]|]].
  - rewrite ?bind_run. cbn [fst snd mret M_ret trace files truthy negb].
    destruct (Hmm (World (files w) ((trace w ++ [LibreRequest text])
                                      ++ [Stderr (u8 "  [LibreTranslate 失败] " ++ e)])))
      as (e2 & E2 & L2 & P2).
    cbn [trace] in E2. rewrite E2.
    exists ([LibreRequest text; Stderr (u8 "  [LibreTranslate 失败] " ++ e)]
              ++ e2 ++ [Sleep 500]).
    rewrite !count_app, L2, P2. rewrite <- !app_assoc. by cbn.
  - cbn [fst snd mret M_ret trace files truthy negb]. rewrite ?bind_run.
    destruct (Hmm (World (files w) (trace w ++ [LibreRequest text])))
      as (e2 & E2 & L2 & P2).
    cbn [fst snd mret M_ret trace files] in *. rewrite E2.
    exists ([LibreRequest text] ++ e2 ++ [Sleep 500]).
    rewrite !count_app, L2, P2. rewrite <- !app_assoc. by cbn.
  - cbn [fst snd mret M_ret trace files truthy negb]. rewrite ?bind_run.
    cbn [fst snd mret M_ret trace files].
    exists [LibreRequest text; Sleep 500]. rewrite <- !app_assoc. by cbn.
  - cbn [fst snd mret M_ret trace files]. rewrite ?Ht. cbn [negb].
    rewrite ?bind_run. cbn [fst snd mret M_ret trace files].
    exists [LibreRequest text; Sleep 500]. rewrite <- !app_assoc. by cbn.
Qed.

(** X10: [translate_problem] sends to LibreTranslate exactly the fields
    that are not blank (the note only when it is not empty), and pauses
    once for each text it sends. *)
Theorem translate_problem_pauses net p w :
  exists evs,
    trace (snd (translate_problem net p w)) = trace w ++ evs
    /\ count is_libre evs
       = length (List.filter (fun s => truthy (strip s)) (fields_sent p))
    /\ count is_pause evs = count is_libre evs.
Proof.
  unfold translate_problem. rewrite !bind_run. cbn [fst snd mret M_ret].
  destruct (translate_events net (title p) w) as (e1 & E1 & L1 & P1).
  set (w1 := snd (translate net (title p) w)) in *.
  destruct (translate_events net (description p) w1) as (e2 & E2 & L2 & P2).
  set (w2 := snd (translate net (description p) w1)) in *.
  destruct (translate_events net (input_section p) w2) as (e3 & E3 & L3 & P3).
  set (w3 := snd (translate net (input_section p) w2)) in *.
  destruct (translate_events net (output_section p) w3) as (e4 & E4 & L4 & P4).
  set (w4 := snd (translate net (output_section p) w3)) in *.
  assert (H5 : exists e5,
             trace (snd ((if truthy (note p) then translate net (note p)
                          else mret []) w4)) = trace w4 ++ e5
             /\ count is_libre e5
                = length (List.filter (fun s => truthy (strip s))
                            (if truthy (note p) then [note p] else []))
             /\ count is_pause e5 = count is_libre e5).
  { destruct (truthy (note p)).
    - destruct (translate_events net (note p) w4) as (e5 & E5 & L5 & P5).
      exists e5. split; [done|]. rewrite L5, P5. cbn [List.filter].
      by destruct (truthy (strip (note p))).
    - exists []. by rewrite app_nil_r. }
  destruct H5 as (e5 & E5 & L5 & P5).
  exists (e1 ++ e2 ++ e3 ++ e4 ++ e5).
  split; [by rewrite E5, E4, E3, E2, E1, <- !app_assoc|].
  unfold fields_sent. rewrite !count_app, List.filter_app, length_app.
  rewrite L1, L2, L3, L4, P1, P2, P3, P4, P5, L5. cbn [app List.filter].
  destruct (truthy (strip (title p))), (truthy (strip (description p))),
    (truthy (strip (input_section p))), (truthy (strip (output_section p)));
    cbn [length]; split; lia.
Qed.


(** ** Translation client: every field is asked for *)

Lemma translate_asks net text w :
  exists evs,
    trace (snd (translate net text w)) = trace w ++ evs
    /\ (truthy (strip text) = true -> In (LibreRequest text) evs).
Proof.
  unfold translate.
  destruct (truthy (strip text)) eqn:Hnb.
  2:{ rewrite orb_true_r. exists []. split; [by rewrite app_nil_r|done]. }
  assert (Ht : truthy text = true).
  { destruct text; [|done]. by vm_compute in Hnb. }
  rewrite Ht. cbn [negb orb]. rewrite bind_run.
  destruct (libre_run net text w) as (r1 & e1 & E1 & _).
  rewrite E1. cbn [fst snd]. rewrite !bind_run.
  cbn [emit fst snd files trace mret M_ret].
  destruct r1 as [|c r1]; cbn [truthy negb].
  - destruct (mymemory_run net text
                (World (files w) (trace w ++ LibreRequest text :: e1)))
      as (r2 & e2 & E2).
    rewrite E2. cbn [fst snd files trace].
    exists (LibreRequest text :: e1 ++ MyMemoryRequest text :: e2 ++ [Sleep 500]).
    split; [|intros _; by left].
    rewrite <- !app_assoc. cbn [app]. by rewrite <- ?app_assoc.
  - cbn [fst snd files trace mret M_ret].
    exists (LibreRequest text :: e1 ++ [Sleep 500]).
    split; [|intros _; by left].
    by rewrite <- !app_assoc.
Qed.

Lemma translate_problem_asks net p w text :
  In text (fields_sent p) -> truthy (strip text) = true ->
  In (LibreRequest text) (trace (snd (translate_problem net p w))).
Proof.
  intros Hin Hnb. rewrite translate_problem_run. cbn [snd].
  destruct (translate_asks net (title p) w) as (e1 & E1 & A1).
  set (w1 := snd (translate net (title p) w)) in *.
  destruct (translate_asks net (description p) w1) as (e2 & E2 & A2).
  set (w2 := snd (translate net (description p) w1)) in *.
  destruct (translate_asks net (input_section p) w2) as (e3 & E3 & A3).
  set (w3 := snd (translate net (input_section p) w2)) in *.
  destruct (translate_asks net (output_section p) w3) as (e4 & E4 & A4).
  set (w4 := snd (translate net (output_section p) w3)) in *.
  assert (H5 : exists e5,
             trace (snd ((if truthy (note p) then translate net (note p)
                          else mret []) w4)) = trace w4 ++ e5
             /\ (truthy (note p) = true -> truthy (strip (note p)) = true ->
                 In (LibreRequest (note p)) e5)).
  { destruct (truthy (note p)).
    - destruct (translate_asks net (note p) w4) as (e5 & E5 & A5).
      exists e5. auto.
    - exists []. split; [by rewrite app_nil_r|done]. }
  destruct H5 as (e5 & E5 & A5).
  rewrite E5, E4, E3, E2, E1. rewrite !in_app_iff.
  unfold fields_sent in Hin. apply in_app_or in Hin as [Hin|Hin].
  - cbn [In] in Hin.
    destruct Hin as [<-|[<-|[<-|[<-|[]]]]]; auto 10.
  - destruct (truthy (note p)) eqn:Hn; [|done].
    destruct Hin as [<-|[]]. auto 10.
Qed.

(** C5: when both translation services fail on a text at the moment
    [translate] asks them (each backend returns the empty string,
    raising included), [translate] returns the text as it is.  The
    failure stays within that field: [translate_problem] passes every
    field to [translate], one after the other, each in the world the
    call before it left, whether that call failed or not, and builds the
    record from what these calls returned; a field on which the
    services fail when its turn comes keeps its text, and every field
    that is not blank is sent to LibreTranslate, whatever happened to
    the others.
    And a run whose page was fetched and parsed (for a problem index
    that is a file name) writes both documents, the translated one
    rendered from exactly that record, and reports success. *)
Theorem translation_fail_soft net :
  (forall text w, fails_at net text w -> fst (translate net text w) = text)
  /\ (forall p w,
      let r1 := translate net (title p) w in
      let r2 := translate net (description p) (snd r1) in
      let r3 := translate net (input_section p) (snd r2) in
      let r4 := translate net (output_section p) (snd r3) in
      let r5 := (if truthy (note p) then translate net (note p) else mret [])
                  (snd r4) in
      translate_problem net p w
      = (Translated (fst r1) (fst r2) (fst r3) (fst r4) (fst r5) (examples p),
         snd r5)
      /\ (fails_at net (title p) w -> fst r1 = title p)
      /\ (fails_at net (description p) (snd r1) -> fst r2 = description p)
      /\ (fails_at net (input_section p) (snd r2) -> fst r3 = input_section p)
      /\ (fails_at net (output_section p) (snd r3) -> fst r4 = output_section p)
      /\ (fails_at net (note p) (snd r4) -> fst r5 = note p))
  /\ (forall p w text,
      In text (fields_sent p) -> truthy (strip text) = true ->
      In (LibreRequest text) (trace (snd (translate_problem net p w))))
  /\ (forall upper lower h2m cf cid idx author force w soup p,
      plain_index (upper idx) = true ->
      force = true \/ files w !! md_file (u8 "zh") cid (upper idx) = None ->
      (forall h, page cf h cid (upper idx) = PageHtml soup) ->
      parse_problem_html h2m soup = Some (Dict p) ->
      let t := fst (translate_problem net p (at_translation w cid (upper idx))) in
      let r := run_translate upper lower h2m cf net cid idx author force w in
      fst r = true
      /\ files (snd r) !! md_file (u8 "en") cid (upper idx)
         = Some (build_en_md p cid (upper idx))
      /\ files (snd r) !! md_file (u8 "zh") cid (upper idx)
         = Some (build_zh_md p t cid (upper idx) author)).
Proof.
  assert (Hfail : forall text w,
             fails_at net text w -> fst (translate net text w) = text)
    by (intros text w [Hl Hm]; by apply translate_failed).
  split; [exact Hfail|]. split; [|split].
  - intros p w. cbv zeta. split; [apply translate_problem_run|].
    repeat split; try apply Hfail.
    intros Hf. destruct (truthy (note p)) eqn:Hn; [by apply Hfail|].
    by destruct (note p).
  - intros p w text. apply translate_problem_asks.
  - intros upper lower h2m cf cid idx author force w soup p _ Hns Hp Hd t r.
    destruct (run_translate_written upper lower h2m cf net cid idx author force
                w soup p Hns Hp Hd) as (m & Hb & Hfiles).
    fold t r in Hb, Hfiles. split; [done|].
    rewrite Hfiles, !index_files_elsewhere by apply md_file_not_index.
    split; [by rewrite lookup_insert_eq|].
    rewrite lookup_insert_ne by (apply not_eq_sym, md_file_zh_en).
    by rewrite lookup_insert_eq.
Qed.

Lemma translation_fail_soft_witness :
  fst (translate net_quota (u8 "T") empty_world) = u8 "T"
  /\ (tr_title (fst (translate_problem net_quota two_samples empty_world)) = u8 "T"
      /\ tr_description (fst (translate_problem net_quota two_samples empty_world))
         = u8 "译:d")
  /\ In (LibreRequest (u8 "d"))
        (trace (snd (translate_problem net_quota two_samples empty_world)))
  /\ fst (run_translate ascii_upper ascii_lower no_markdown demo_site net_quota
                        12 (u8 "a") (u8 "me") false empty_world) = true.
Proof.
  destruct (translation_fail_soft net_quota) as (H1 & H2 & H3 & H4).
  split; [apply H1; split; vm_compute; reflexivity|]. split; [|split].
  - destruct (H2 two_samples empty_world) as (E & Ht & _).
    rewrite E. cbn [fst tr_title tr_description]. split.
    + apply Ht. split; vm_compute; reflexivity.
    + vm_compute. reflexivity.
  - apply H3; [right; left; reflexivity | vm_compute; reflexivity].
  - apply (H4 ascii_upper ascii_lower no_markdown demo_site 12%Z (u8 "a") (u8 "me")
              false empty_world (page_titled (u8 "A. Example Title"))
              (Problem (u8 "Example Title") (u8 "A. Example Title") [] [] [] [] [])).
    + vm_compute. reflexivity.
    + right. vm_compute. reflexivity.
    + intros h. reflexivity.
    + vm_compute. reflexivity.
Defined.

(** ** Instances *)

Lemma update_index_header_without_section_witness :
  files (snd (update_index 1 (u8 "A") (u8 "Theatre Square") (u8 "剧院广场")
                           (u8 "1000") [u8 "math"] (u8 "数学") crlf_world))
    !! zh_index = Some demo_zh_index.
Proof.
  apply update_index_header_without_section; vm_compute; reflexivity.
Defined.

Lemma update_index_lists_problem_witness :
  exists c',
    files (snd (update_index 13 (u8 "A") (u8 "Theatre Square") (u8 "剧院广场")
                             (u8 "1000") [u8 "math"] (u8 "数学") crlf_world))
      !! zh_index = Some c'
    /\ contains (zh_fragment 13 (u8 "A")) c' = true.
Proof.
  assert (Hz : text_of (files crlf_world) zh_index = Some demo_zh_index)
    by (vm_compute; reflexivity).
  pose proof (update_index_lists_problem 13 (u8 "A") (u8 "Theatre Square")
                (u8 "剧院广场") (u8 "1000") [u8 "math"] (u8 "数学")
                crlf_world demo_zh_index Hz) as H.
  cbv zeta in H. destruct H as [_ H].
  destruct H as (c' & Hc' & _ & Hnew); [vm_compute; reflexivity|].
  exists c'. split; [exact Hc'|]. apply Hnew. vm_compute. reflexivity.
Defined.

Lemma update_index_idempotent_witness :
  let w1 := snd (update_index 12 (u8 "B") (u8 "Spreadsheet") (u8 "电子表格")
                              (u8 "1600") [u8 "math"] (u8 "数学") crlf_world) in
  update_index 12 (u8 "B") (u8 "Spreadsheet") (u8 "电子表格")
               (u8 "1600") [u8 "math"] (u8 "数学") w1 = (tt, w1).
Proof.
  exact (update_index_idempotent 12 (u8 "B") (u8 "Spreadsheet") (u8 "电子表格")
           (u8 "1600") [u8 "math"] (u8 "数学") crlf_world eq_refl).
Defined.

Lemma translate_asks_in_order_witness :
  exists mid,
    trace (snd (translate net_echo (u8 "Theatre Square") empty_world))
    = LibreRequest (u8 "Theatre Square") :: mid ++ [Sleep 500]
    /\ mid = [].
Proof.
  destruct (translate_asks_in_order net_echo (u8 "Theatre Square") empty_world)
    as (_ & mid & Htr & Hfirst & _).
  - vm_compute. reflexivity.
  - exists mid. split; [exact Htr|]. apply Hfirst. by vm_compute.
Defined.

Lemma run_translate_frame_witness :
  files (snd (run_translate ascii_upper ascii_lower no_markdown demo_site
                            net_down 12 (u8 "b") (u8 "me") false readme_world))
    !! readme = Some (u8 "hello").
Proof.
  rewrite run_translate_frame; by vm_compute.
Defined.

Lemma run_translate_forced_keeps_index_witness :
  files (snd (run_translate ascii_upper ascii_lower no_markdown demo_site
                            net_down 12 (u8 "a") (u8 "me") true demo_world))
    !! zh_index = Some demo_zh_index.
Proof.
  assert (Hd : parse_problem_html no_markdown (page_titled (u8 "A. Example Title"))
               = Some (Dict (Problem (u8 "Example Title") (u8 "A. Example Title")
                                     [] [] [] [] [])))
    by (vm_compute; reflexivity).
  assert (Hz : text_of (files demo_world) zh_index = Some demo_zh_index)
    by (vm_compute; reflexivity).
  assert (Hc : contains (zh_fragment 12 (ascii_upper (u8 "a"))) demo_zh_index = true)
    by (vm_compute; reflexivity).
  pose proof (run_translate_forced_keeps_index ascii_upper ascii_lower no_markdown
                demo_site net_down 12 (u8 "a") (u8 "me") demo_world _ _ _
                (fun h => eq_refl) Hd Hz Hc) as H.
  cbv zeta in H. destruct H as (_ & H & _). rewrite H.
  vm_compute. reflexivity.
Defined.

Lemma parse_problem_html_raises_witness :
  parse_problem_html no_markdown headerless_page = None.
Proof.
  apply parse_problem_html_raises.
  eexists. split; vm_compute; reflexivity.
Defined.

Lemma headerless_page_gives_up_witness :
  run_translate ascii_upper ascii_lower no_markdown headerless_site net_echo
                12 (u8 "a") (u8 "me") false demo_world
  = (false,
     World (files demo_world)
           (trace demo_world
              ++ [processing 12 (ascii_upper (u8 "a"));
                  PageRequest 12 (ascii_upper (u8 "a"));
                  Stderr (u8 "抓取失败: 'NoneType' object has no attribute 'find'");
                  given_up])).
Proof.
  assert (Hps : find DIV (u8 "problem-statement") headerless_page
                = Some (Elem DIV [u8 "problem-statement"]
                             [Elem DIV [] [Text (u8 "statement")]]))
    by (vm_compute; reflexivity).
  assert (Hh : find DIV (u8 "header")
                    (Elem DIV [u8 "problem-statement"]
                          [Elem DIV [] [Text (u8 "statement")]]) = None)
    by (vm_compute; reflexivity).
  assert (Hn : files demo_world !! md_file (u8 "zh") 12 (ascii_upper (u8 "a")) = None)
    by (vm_compute; reflexivity).
  exact (headerless_page_gives_up ascii_upper ascii_lower no_markdown
           headerless_site net_echo 12 (u8 "a") (u8 "me") false demo_world
           headerless_page _ Hps Hh (or_intror Hn) (fun h => eq_refl)).
Defined.

Lemma get_problem_meta_sources_witness :
  exists ps p z,
    standings rated_site (trace empty_world) 12 = MetaJson true ps
    /\ p ∈ ps /\ mp_index p = u8 "A" /\ mp_rating p = Some z
    /\ from_option str_of_Z (u8 "?")
         (fst (get_problem_meta rated_site 12 (u8 "A") empty_world) ≫= rating)
       = str_of_Z z.
Proof.
  pose proof (get_problem_meta_sources rated_site 12 (u8 "A") empty_world) as H.
  cbv zeta in H. destruct H as (_ & Hr & _).
  apply Hr. by vm_compute.
Defined.

Lemma demo_zh_index_section :
  section_at (u8 "## 12") (u8 "# 题目" ++ [NL]) [u8 "A [800]"] [u8 ":-:"]
             [u8 "[Theatre Square \| 剧院广场](/problem/12/A)（数学）"] [NL; NL]
             demo_zh_index.
Proof.
  repeat split; try (vm_compute; reflexivity).
  - right. eexists. reflexivity.
  - apply no_match_before_spec. vm_compute. reflexivity.
Defined.

Lemma widen_keeps_shape_witness :
  section_at (u8 "## 12") (u8 "# 题目" ++ [NL])
             ([u8 "A [800]"] ++ [u8 "B [1600]"]) ([u8 ":-:"] ++ [u8 ":-:"])
             ([u8 "[Theatre Square \| 剧院广场](/problem/12/A)（数学）"]
                ++ [u8 "[S](/problem/12/B)"])
             (NL :: [NL; NL])
             (patch_index (u8 "## 12") (u8 "B [1600]") (u8 "[S](/problem/12/B)")
                          demo_zh_index).
Proof.
  apply (widen_keeps_shape (u8 "## 12") (u8 "B [1600]") (u8 "[S](/problem/12/B)")
           _ _ _ _ _ _ demo_zh_index_section); vm_compute; reflexivity.
Defined.

Lemma new_section_shape_witness :
  patch_index (u8 "## 12") (u8 "A [800]") (u8 "[T](/problem/12/A)")
              (u8 "# 题目" ++ [NL; NL])
  = section_text (u8 "## 12") (rstrip (u8 "# 题目" ++ [NL; NL]) ++ [NL])
                 [u8 "A [800]"] [u8 ":-:"] [u8 "[T](/problem/12/A)"] [NL; NL].
Proof.
  assert (H1 : contains (u8 "## 12") (u8 "# 题目" ++ [NL; NL]) = false)
    by (vm_compute; reflexivity).
  assert (H2 : forallb notnl (u8 "## 12") = true) by (vm_compute; reflexivity).
  assert (H3 : good_cells [u8 "A [800]"] = true) by (vm_compute; reflexivity).
  assert (H4 : good_cells [u8 "[T](/problem/12/A)"] = true)
    by (vm_compute; reflexivity).
  exact (proj1 (new_section_shape _ _ _ _ H1 H2 H3 H4)).
Defined.

Lemma two_problems_one_table_witness :
  files (snd (update_index 12 (u8 "B") (u8 "S") (u8 "表") (u8 "1600") [] []
                (snd (update_index 12 (u8 "A") (u8 "T") (u8 "题") (u8 "800") [] []
                                   fresh_world))))
    !! zh_index
  = Some (section_text (contest_header_of 12) (rstrip (u8 "# 题目" ++ [NL]) ++ [NL])
            [header_cell (u8 "A") (u8 "800"); header_cell (u8 "B") (u8 "1600")]
            [u8 ":-:"; u8 ":-:"]
            [zh_entry_of 12 (u8 "A") (u8 "T") (u8 "题") [];
             zh_entry_of 12 (u8 "B") (u8 "S") (u8 "表") []]
            [NL; NL; NL]).
Proof.
  assert (Hz : text_of (files fresh_world) zh_index = Some (u8 "# 题目" ++ [NL]))
    by (vm_compute; reflexivity).
  assert (Hh : contains (contest_header_of 12) (u8 "# 题目" ++ [NL]) = false)
    by (vm_compute; reflexivity).
  assert (Hf : contains (zh_fragment 12 (u8 "A")) (u8 "# 题目" ++ [NL]) = false)
    by (vm_compute; reflexivity).
  pose proof (two_problems_one_table 12 fresh_world (u8 "# 题目" ++ [NL])
                (u8 "A") (u8 "T") (u8 "题") (u8 "800") [] []
                (u8 "B") (u8 "S") (u8 "表") (u8 "1600") [] []
                Hz Hh Hf eq_refl eq_refl eq_refl eq_refl eq_refl) as H.
  cbv zeta in H.
  assert (Hf' : contains (zh_fragment 12 (u8 "B"))
                  (section_text (contest_header_of 12)
                     (rstrip (u8 "# 题目" ++ [NL]) ++ [NL])
                     [header_cell (u8 "A") (u8 "800")] [u8 ":-:"]
                     [zh_entry_of 12 (u8 "A") (u8 "T") (u8 "题") []] [NL; NL])
                = false)
    by (vm_compute; reflexivity).
  exact (proj2 (H Hf')).
Defined.
